(** * Silpo scraper: a shallow embedding of the fetch / extract pipeline

    The development follows the layout of the repository:
    - [Py]      : the fragment of the Python runtime the code relies on
                  (unicode strings, binary64 floats, [round], [int], [float]);
    - [Re]      : a backtracking matcher for the fragment of [re] that the
                  patterns of the repository use;
    - [config]  : src/config.py;
    - [Parser]  : src/parser.py;
    - [Scraper] : src/scraper.py (the retry loop of [fetch_page]);
    - [Main]    : src/main.py (pagination discovery).

    Definitions come first, the theorems about them follow. *)

From Stdlib Require Import List String Ascii Bool Arith NArith ZArith Lia.
From Corelib Require Import SpecFloat.
Import ListNotations.

Set Implicit Arguments.

(* ================================================================= *)
(** * Python runtime fragment *)
(* ================================================================= *)

Module Py.

(** A Python [str] is a sequence of unicode code points. *)
Definition char := N.
Definition str := list char.

(** Source literals are written as UTF-8 text and decoded to code points. *)
Fixpoint utf8 (s : string) (need : nat) (acc : N) : str :=
  match s with
  | EmptyString => []
  | String a s' =>
      let b := N_of_ascii a in
      match need with
      | O => if (b <? 128)%N then b :: utf8 s' 0 0%N
             else if (b <? 224)%N then utf8 s' 1 (b - 192)%N
             else if (b <? 240)%N then utf8 s' 2 (b - 224)%N
             else utf8 s' 3 (b - 240)%N
      | S O => (acc * 64 + (b - 128))%N :: utf8 s' 0 0%N
      | S n => utf8 s' n (acc * 64 + (b - 128))%N
      end
  end.

Definition u (s : string) : str := utf8 s 0 0%N.

(** Control characters, which a literal of this file does not escape. *)
Definition TAB : char := 9%N.
Definition LF : char := 10%N.
Definition CR : char := 13%N.

Definition str_eqb (a b : str) : bool :=
  if list_eq_dec N.eq_dec a b then true else false.

(** The character database behind [str.isspace], [\s], [\d], [\w],
    [str.lower] and [re.IGNORECASE].  The functions of the program are
    written against this interface; [ucd] below instantiates it. *)
Class Unicode := {
  isspace : char -> bool;          (* Py_UNICODE_ISSPACE *)
  decimal : char -> option Z;      (* Py_UNICODE_TODECIMAL, None for -1 *)
  isalnum : char -> bool;          (* Py_UNICODE_ISALNUM *)
  tolower : char -> char           (* Py_UNICODE_TOLOWER *)
}.

Definition in_range (lo hi c : N) : bool := ((lo <=? c) && (c <=? hi))%N.

Definition in_ranges (rs : list (N * N)) (c : N) : bool :=
  existsb (fun r => in_range (fst r) (snd r) c) rs.

(** White space: the complete list of unicode 14 (bidirectional type
    WS, B or S, or category Zs). *)
Definition space_ranges : list (N * N) :=
  [ (0x9, 0xd); (0x1c, 0x20); (0x85, 0x85); (0xa0, 0xa0); (0x1680, 0x1680);
    (0x2000, 0x200a); (0x2028, 0x2029); (0x202f, 0x202f); (0x205f, 0x205f);
    (0x3000, 0x3000) ]%N.

(** Decimal digits (category Nd), the complete list of unicode 14: each
    entry starts a run of the ten digits 0..9. *)
Definition decimal_starts : list N :=
  [ 0x30; 0x660; 0x6f0; 0x7c0; 0x966; 0x9e6; 0xa66; 0xae6; 0xb66;
    0xbe6; 0xc66; 0xce6; 0xd66; 0xde6; 0xe50; 0xed0; 0xf20; 0x1040;
    0x1090; 0x17e0; 0x1810; 0x1946; 0x19d0; 0x1a80; 0x1a90; 0x1b50;
    0x1bb0; 0x1c40; 0x1c50; 0xa620; 0xa8d0; 0xa900; 0xa9d0; 0xa9f0;
    0xaa50; 0xabf0; 0xff10; 0x104a0; 0x10d30; 0x11066; 0x110f0;
    0x11136; 0x111d0; 0x112f0; 0x11450; 0x114d0; 0x11650; 0x116c0;
    0x11730; 0x118e0; 0x11950; 0x11c50; 0x11d50; 0x11da0; 0x16a60;
    0x16ac0; 0x16b50; 0x1d7ce; 0x1d7d8; 0x1d7e2; 0x1d7ec; 0x1d7f6;
    0x1e140; 0x1e2f0; 0x1e950; 0x1fbf0 ]%N.

Fixpoint decimal_in (starts : list N) (c : N) : option Z :=
  match starts with
  | [] => None
  | s :: rest =>
      if in_range s (s + 9) c then Some (Z.of_N (c - s))
      else decimal_in rest c
  end.

(** Alphanumeric code points of the blocks Basic Latin .. Cyrillic
    Supplement (below U+0530), which hold the alphabets of the site; the
    instance takes the code points above them for symbols. *)
Definition alnum_ranges : list (N * N) :=
  [ (0x30, 0x39); (0x41, 0x5a); (0x61, 0x7a); (0xaa, 0xaa); (0xb2, 0xb3);
    (0xb5, 0xb5); (0xb9, 0xba); (0xbc, 0xbe); (0xc0, 0xd6); (0xd8, 0xf6);
    (0xf8, 0x2c1); (0x2c6, 0x2d1); (0x2e0, 0x2e4); (0x2ec, 0x2ec);
    (0x2ee, 0x2ee); (0x370, 0x374); (0x376, 0x377); (0x37a, 0x37d);
    (0x37f, 0x37f); (0x386, 0x386); (0x388, 0x38a); (0x38c, 0x38c);
    (0x38e, 0x3a1); (0x3a3, 0x3f5); (0x3f7, 0x481); (0x48a, 0x52f) ]%N.

(** Simple lower-case mapping of Basic Latin, Latin-1 and Cyrillic. *)
Definition ucd_tolower (c : N) : N :=
  if in_range 0x41 0x5a c then (c + 32)%N
  else if in_range 0xc0 0xde c && negb (c =? 0xd7)%N then (c + 32)%N
  else if in_range 0x400 0x40f c then (c + 0x50)%N
  else if in_range 0x410 0x42f c then (c + 0x20)%N
  else if (in_range 0x460 0x481 c || in_range 0x48a 0x4bf c
           || in_range 0x4d0 0x4ff c) && N.even c then (c + 1)%N
  else if (c =? 0x4c0)%N then 0x4cf%N
  else if in_range 0x4c1 0x4ce c && N.odd c then (c + 1)%N
  else c.

#[export] Instance ucd : Unicode := {
  isspace := in_ranges space_ranges;
  decimal := decimal_in decimal_starts;
  isalnum := in_ranges alnum_ranges;
  tolower := ucd_tolower
}.

Section Strings.
Context {U : Unicode}.

(** [str.replace] for one-character patterns, as the code uses it. *)
Definition replace (old new : char) (s : str) : str :=
  map (fun c => if (c =? old)%N then new else c) s.

Fixpoint lstrip (s : str) : str :=
  match s with
  | c :: s' => if isspace c then lstrip s' else s
  | [] => []
  end.

Definition rstrip (s : str) : str := rev (lstrip (rev s)).

Definition strip (s : str) : str := rstrip (lstrip s).

(** [s[:n]] *)
Definition slice_to (n : nat) (s : str) : str := firstn n s.

(** [str.lower], by the simple case mapping (the full mapping differs on
    U+0130 and on a final sigma only). *)
Definition lower (s : str) : str := map tolower s.

Fixpoint startswith (p s : str) : bool :=
  match p, s with
  | [], _ => true
  | a :: p', b :: s' => (a =? b)%N && startswith p' s'
  | _ :: _, [] => false
  end.

(** [needle in s] *)
Fixpoint contains (needle s : str) : bool :=
  startswith needle s ||
  match s with
  | [] => false
  | _ :: s' => contains needle s'
  end.

End Strings.

(** ** Decimal output of integers, for f-strings *)

Definition digit_char (d : N) : char := (48 + d)%N.

Fixpoint pos_digits (fuel : nat) (n : N) (acc : str) : str :=
  match fuel with
  | O => acc
  | S f =>
      let acc' := digit_char (n mod 10) :: acc in
      if (n / 10 =? 0)%N then acc' else pos_digits f (n / 10)%N acc'
  end.

Definition str_of_N (n : N) : str := pos_digits (S (N.to_nat (N.log2 n))) n [].

Definition str_of_Z (z : Z) : str :=
  match z with
  | Zneg p => 45%N :: str_of_N (Npos p)
  | _ => str_of_N (Z.to_N z)
  end.

(** The number that a run of ASCII digits writes, most significant digit
    first. *)
Fixpoint digits_number (s : str) : N :=
  match s with
  | [] => 0
  | c :: s' => (c - 48) * 10 ^ N.of_nat (List.length s') + digits_number s'
  end.

(** ** Numbers

    A Python [float] is an IEEE 754 binary64 number; [int] is unbounded. *)

Definition float := spec_float.
Definition prec : Z := 53.
Definition emax : Z := 1024.

Definition fmul : float -> float -> float := SFmul prec emax.
Definition fdiv : float -> float -> float := SFdiv prec emax.
Definition flt : float -> float -> bool := SFltb.
Definition fle : float -> float -> bool := SFleb.
Definition feq : float -> float -> bool := SFeqb.

(** Nearest binary64 to an integer (ties to even); infinite on overflow. *)
Definition float_of_Z (z : Z) : float := binary_normalize prec emax z 0 false.

(** Nearest binary64 to the ratio [n / d] of [0 <= n] and [0 < d]: the
    quotient is taken with more than 64 bits and a sticky bit, then
    rounded once. *)
Definition float_of_ratio (n d : Z) : float :=
  if (n =? 0)%Z then S754_zero false
  else
    let s := Z.max 0 (66 + Z.log2 d - Z.log2 n) in
    let num := Z.shiftl n s in
    let q := (num / d)%Z in
    let sticky := if (num mod d =? 0)%Z then 0%Z else 1%Z in
    binary_normalize prec emax (2 * q + sticky) (- s - 1) false.

Definition is_inf (x : float) : bool :=
  match x with S754_infinity _ => true | _ => false end.

(** Truth value of a float: [not x] holds for [0.0] and [-0.0] only. *)
Definition float_truthy (x : float) : bool :=
  match x with S754_zero _ => false | _ => true end.

(** Conversion of an [int] operand in mixed arithmetic; [None] stands for
    OverflowError. *)
Definition float_of_int (z : Z) : option float :=
  let f := float_of_Z z in if is_inf f then None else Some f.

(** [x / y] on floats; [None] stands for ZeroDivisionError. *)
Definition float_truediv (x y : float) : option float :=
  if float_truthy y then Some (fdiv x y) else None.

(** [a / b] on ints: the correctly rounded quotient; [None] stands for
    ZeroDivisionError or OverflowError. *)
Definition int_truediv (a b : Z) : option float :=
  if (b =? 0)%Z then None
  else
    let q := float_of_ratio (Z.abs a) (Z.abs b) in
    let neg := xorb (a <? 0)%Z (b <? 0)%Z in
    if is_inf q then None else Some (if neg then SFopp q else q).

(** [x / n] and [x * n] with a float [x] and an int [n]. *)
Definition float_div_int (x : float) (n : Z) : option float :=
  match float_of_int n with
  | Some y => float_truediv x y
  | None => None
  end.

Definition float_mul_int (x : float) (n : Z) : option float :=
  option_map (fmul x) (float_of_int n).

Definition round_half_even (m d : Z) : Z :=
  let q := (m / d)%Z in
  let r := (m mod d)%Z in
  if (2 * r <? d)%Z then q
  else if (d <? 2 * r)%Z then (q + 1)%Z
  else if Z.even q then q else (q + 1)%Z.

(** [round(x)] with one argument: the nearest int, ties to even; [None]
    stands for OverflowError (infinities) or ValueError (nan). *)
Definition round (x : float) : option Z :=
  match x with
  | S754_zero _ => Some 0%Z
  | S754_infinity _ | S754_nan => None
  | S754_finite s m e =>
      let v := match e with
               | Zneg p => round_half_even (Zpos m) (Z.pow_pos 2 p)
               | _ => (Zpos m * 2 ^ e)%Z
               end in
      Some (if s then (- v)%Z else v)
  end.

Section Numbers.
Context {U : Unicode}.

(** Value of a run of decimal digits, most significant first. *)
Fixpoint digits_value (acc : Z) (s : str) : option Z :=
  match s with
  | [] => Some acc
  | c :: s' =>
      match decimal c with
      | Some d => digits_value (10 * acc + d) s'
      | None => None
      end
  end.

(** Default of [sys.int_max_str_digits] (Python 3.11 and later). *)
Definition int_max_str_digits : nat := 4300.

(** [int(s)] on a run of digits; [None] stands for ValueError (no
    digit, a character that is not a digit, or more digits than the
    conversion limit). *)
Definition int_of_str (s : str) : option Z :=
  match s with
  | [] => None
  | _ => if (List.length s <=? int_max_str_digits)%nat then digits_value 0 s else None
  end.

Fixpoint split_at_dot (s : str) : str * option str :=
  match s with
  | [] => ([], None)
  | c :: s' =>
      if (c =? 46)%N then ([], Some s')
      else let '(a, b) := split_at_dot s' in (c :: a, b)
  end.

(** [float(s)] on a plain decimal literal: digits with an optional
    fraction, the only form a capture group of the program's patterns can
    take.  [None] stands for ValueError.  (Signs, exponents, underscores,
    [inf] and [nan] are outside this fragment.) *)
Definition float_of_str (s : str) : option float :=
  let '(ip, fp) := split_at_dot s in
  let fp := match fp with Some f => f | None => [] end in
  match ip ++ fp with
  | [] => None
  | ds =>
      match digits_value 0 ds with
      | Some m => Some (float_of_ratio m (10 ^ Z.of_nat (List.length fp)))
      | None => None
      end
  end.

End Numbers.

(** Float constants written as decimal fractions. *)
Definition dec (m : Z) (k : nat) : float := float_of_ratio m (10 ^ Z.of_nat k).

End Py.

(* ================================================================= *)
(** * Regular expressions *)
(* ================================================================= *)

(** The fragment of Python's [re] that the patterns of the repository
    use.  Matching is by backtracking with the priorities of [re]: the
    left alternative first, greedy repetition longest first, lazy
    repetition shortest first.  Every quantifier of the repository applies
    to a single-character atom, except the optional group [(?:...)?]. *)

Module Re.
Import Py.

(** Members of a bracket class. *)
Inductive citem :=
| CChar (c : char)
| CRange (lo hi : char)
| CDigit                       (* \d *)
| CSpace                       (* \s *)
| CWord.                       (* \w *)

(** Atoms consume exactly one character. *)
Inductive atom :=
| ALit (c : char)
| ASet (neg : bool) (items : list citem)
| AAny.                        (* [.] under re.DOTALL *)

Inductive regex :=
| REps
| RAtom (a : atom)
| RSeq (r1 r2 : regex)
| RAlt (r1 r2 : regex)
| ROpt (r : regex)                                 (* (?:r)? *)
| RRep (a : atom) (lo : nat) (hi : option nat) (greedy : bool)
| RGroup (n : nat) (r : regex)                     (* capture group n *)
| RBol                                             (* ^ *)
| RWordB.                                          (* \b *)

(** A position in the subject, with the captures made so far. *)
Record mstate := MState {
  m_pos : nat;
  m_prev : option char;
  m_rest : str;
  m_caps : list (nat * str)
}.

(** A match object: [start()], [end()] and the groups. *)
Record rmatch := RMatch {
  m_start : nat;
  m_end : nat;
  m_groups : list (nat * str)
}.

Fixpoint lookup_group (n : nat) (caps : list (nat * str)) : option str :=
  match caps with
  | [] => None
  | (k, v) :: rest => if (k =? n)%nat then Some v else lookup_group n rest
  end.

(** [m.group(n)] for a group that took part in the match. *)
Definition group (n : nat) (m : rmatch) : str :=
  match lookup_group n (m_groups m) with
  | Some v => v
  | None => []
  end.

Section Matcher.
Context {U : Unicode}.

Definition isword (c : char) : bool := isalnum c || (c =? 95)%N.

Definition isdigit (c : char) : bool :=
  match decimal c with Some _ => true | None => false end.

Definition item_ok (c : char) (i : citem) : bool :=
  match i with
  | CChar x => (c =? x)%N
  | CRange lo hi => in_range lo hi c
  | CDigit => isdigit c
  | CSpace => isspace c
  | CWord => isword c
  end.

(** [ic] is re.IGNORECASE: both sides are compared in lower case. *)
Definition atom_ok (ic : bool) (a : atom) (c : char) : bool :=
  match a with
  | ALit x => if ic then (tolower c =? tolower x)%N else (c =? x)%N
  | ASet neg items =>
      xorb neg (existsb (item_ok (if ic then tolower c else c)) items)
  | AAny => true
  end.

Definition hi_allows (hi : option nat) : bool :=
  match hi with Some O => false | _ => true end.

Definition hi_pred (hi : option nat) : option nat := option_map pred hi.

(** Repetition of an atom: [lo] more characters are required and at most
    [hi] more are allowed. *)
Fixpoint rep (ic greedy : bool) (a : atom) (lo : nat) (hi : option nat)
    (pos : nat) (prev : option char) (rest : str)
    (k : nat -> option char -> str -> option mstate) : option mstate :=
  if greedy then
    match
      match rest with
      | c :: rest' =>
          if hi_allows hi && atom_ok ic a c
          then rep ic greedy a (pred lo) (hi_pred hi) (S pos) (Some c) rest' k
          else None
      | [] => None
      end
    with
    | Some r => Some r
    | None => if (lo =? 0)%nat then k pos prev rest else None
    end
  else
    match (if (lo =? 0)%nat then k pos prev rest else None) with
    | Some r => Some r
    | None =>
        match rest with
        | c :: rest' =>
            if hi_allows hi && atom_ok ic a c
            then rep ic greedy a (pred lo) (hi_pred hi) (S pos) (Some c) rest' k
            else None
        | [] => None
        end
    end.

Definition opt_isword (c : option char) : bool :=
  match c with Some x => isword x | None => false end.

(** [mt ic r st k]: match [r] at [st], then continue with [k]; a failure
    of [k] backtracks into [r]. *)
Fixpoint mt (ic : bool) (r : regex) (st : mstate)
    (k : mstate -> option mstate) : option mstate :=
  match r with
  | REps => k st
  | RAtom a =>
      match m_rest st with
      | c :: rest' =>
          if atom_ok ic a c
          then k (MState (S (m_pos st)) (Some c) rest' (m_caps st))
          else None
      | [] => None
      end
  | RSeq r1 r2 => mt ic r1 st (fun st1 => mt ic r2 st1 k)
  | RAlt r1 r2 =>
      match mt ic r1 st k with
      | Some x => Some x
      | None => mt ic r2 st k
      end
  | ROpt r1 =>
      match mt ic r1 st k with
      | Some x => Some x
      | None => k st
      end
  | RRep a lo hi greedy =>
      rep ic greedy a lo hi (m_pos st) (m_prev st) (m_rest st)
        (fun p pr rs => k (MState p pr rs (m_caps st)))
  | RGroup n r1 =>
      mt ic r1 st (fun st1 =>
        k (MState (m_pos st1) (m_prev st1) (m_rest st1)
             ((n, firstn (m_pos st1 - m_pos st) (m_rest st)) :: m_caps st1)))
  | RBol => if (m_pos st =? 0)%nat then k st else None
  | RWordB =>
      if xorb (opt_isword (m_prev st)) (opt_isword (hd_error (m_rest st)))
      then k st else None
  end.

(** A match starting exactly at the given position. *)
Definition match_at (ic : bool) (r : regex) (pos : nat) (prev : option char)
    (rest : str) : option rmatch :=
  match mt ic r (MState pos prev rest []) (fun st => Some st) with
  | Some st => Some (RMatch pos (m_pos st) (m_caps st))
  | None => None
  end.

(** [re.match] *)
Definition re_match (ic : bool) (r : regex) (s : str) : option rmatch :=
  match_at ic r 0 None s.

Fixpoint search_from (ic : bool) (r : regex) (pos : nat) (prev : option char)
    (rest : str) : option rmatch :=
  match match_at ic r pos prev rest with
  | Some m => Some m
  | None =>
      match rest with
      | [] => None
      | c :: rest' => search_from ic r (S pos) (Some c) rest'
      end
  end.

(** [re.search]: the leftmost match. *)
Definition search (ic : bool) (r : regex) (s : str) : option rmatch :=
  search_from ic r 0 None s.

(** [re.finditer]: the successive leftmost matches that do not overlap.
    [skip] counts the characters still covered by the previous match.
    After an empty match the scan resumes one character further. *)
Fixpoint finditer_from (ic : bool) (r : regex) (skip pos : nat)
    (prev : option char) (rest : str) : list rmatch :=
  match skip with
  | S n =>
      match rest with
      | [] => []
      | c :: rest' => finditer_from ic r n (S pos) (Some c) rest'
      end
  | O =>
      match match_at ic r pos prev rest with
      | Some m =>
          m :: match rest with
               | [] => []
               | c :: rest' =>
                   finditer_from ic r (m_end m - pos - 1) (S pos) (Some c) rest'
               end
      | None =>
          match rest with
          | [] => []
          | c :: rest' => finditer_from ic r 0 (S pos) (Some c) rest'
          end
      end
  end.

Definition finditer (ic : bool) (r : regex) (s : str) : list rmatch :=
  finditer_from ic r 0 0 None s.

(** [re.sub] with a replacement that holds no group reference. *)
Fixpoint sub_from (ic : bool) (r : regex) (repl : str) (skip pos : nat)
    (prev : option char) (rest : str) : str :=
  match skip with
  | S n =>
      match rest with
      | [] => []
      | c :: rest' => sub_from ic r repl n (S pos) (Some c) rest'
      end
  | O =>
      match match_at ic r pos prev rest with
      | Some m =>
          repl ++
          match rest with
          | [] => []
          | c :: rest' =>
              (if (m_end m =? pos)%nat then [c] else []) ++
              sub_from ic r repl (m_end m - pos - 1) (S pos) (Some c) rest'
          end
      | None =>
          match rest with
          | [] => []
          | c :: rest' => c :: sub_from ic r repl 0 (S pos) (Some c) rest'
          end
      end
  end.

Definition sub (ic : bool) (r : regex) (repl : str) (s : str) : str :=
  sub_from ic r repl 0 0 None s.

End Matcher.

(** ** Pattern notation *)

Definition seq (rs : list regex) : regex := fold_right RSeq REps rs.

(** The first character of a literal. *)
Definition ch (s : string) : char := hd 0%N (u s).

(** A literal string. *)
Definition lit (s : string) : regex :=
  seq (map (fun c => RAtom (ALit c)) (u s)).

(** Bracket classes: [cls] is [[...]], [ncls] is [[^...]]; [chars] lists
    single characters and [range] is [a-b]. *)
Definition cls (items : list citem) : atom := ASet false items.
Definition ncls (items : list citem) : atom := ASet true items.
Definition chars (s : string) : list citem := map CChar (u s).
Definition range (a b : string) : citem := CRange (ch a) (ch b).

Definition dig : atom := cls [CDigit].                             (* \d *)
Definition spc : atom := cls [CSpace].                             (* \s *)
Definition one (a : atom) : regex := RAtom a.
Definition star (a : atom) : regex := RRep a 0 None true.          (* a*  *)
Definition plus (a : atom) : regex := RRep a 1 None true.          (* a+  *)
Definition star_lazy (a : atom) : regex := RRep a 0 None false.    (* a*? *)
Definition times (a : atom) (lo hi : nat) : regex :=
  RRep a lo (Some hi) true.                                        (* a{lo,hi} *)
Definition times_lazy (a : atom) (lo hi : nat) : regex :=
  RRep a lo (Some hi) false.                                       (* a{lo,hi}? *)

End Re.

(* ================================================================= *)
(** * src/config.py *)
(* ================================================================= *)

Module config.
Import Py.

Record Config := {
  BASE_URL : str;
  MAX_PAGES : Z;
  REQUEST_DELAY : float;
  RETRY_DELAY : float;
  RETRY_ATTEMPTS : Z;
  KNOWN_BRANDS : list str;
  (* a dict, iterated in insertion order *)
  PRODUCT_TYPES : list (str * list str)
}.

(** The values of the repository. *)
Definition default : Config := {|
  BASE_URL := u "https://silpo.ua/category/molochni-produkty-ta-iaitsia-234";
  MAX_PAGES := 10;
  REQUEST_DELAY := dec 15 1;
  RETRY_DELAY := dec 20 1;
  RETRY_ATTEMPTS := 3;
  KNOWN_BRANDS := map u
    [ "Яготинське"; "Ферма"; "Галичина"; "Селянське"; "ПростоНаше";
      "Премія"; "Молокія"; "Бурьонка"; "На здоров'я"; "Даніссімо";
      "Активіа"; "Простоквашино"; "Чудо"; "Агуня"; "Растішка"; "Ростишка";
      "Lactel"; "Actimel"; "Danone"; "Muller"; "Alpro"; "Valio";
      "Elle&Vire"; "President"; "Деліссімо";
      "Біло"; "Білоцерківське"; "Тульчинка"; "Марійка"; "Злагода" ]%string;
  PRODUCT_TYPES := map (fun kv => (u (fst kv), map u (snd kv)))
    [ ("молоко", ["молоко"]);
      ("вершки", ["вершки"]);
      ("сир", ["сир "]);
      ("сметана", ["сметана"]);
      ("йогурт", ["йогурт"]);
      ("кефір", ["кефір"]);
      ("ряжанка", ["ряжанка"]);
      ("масло", ["масло"]);
      ("маргарин", ["маргарин"]);
      ("яйця", ["яйце"; "яйця"]);
      ("сирок", ["сирок"]);
      ("десерт", ["десерт"]);
      ("творог", ["творог"; "кисломолочний"]);
      ("згущене", ["згущене"]);
      ("каша", ["каша"; "хлопья"]) ]%string
|}.

End config.

(** Log records are kept at the level config.py configures (INFO) and
    above; [logger.debug] lines leave no record. *)
Module logging.
Inductive level := INFO | WARNING | ERROR.
End logging.

(* ================================================================= *)
(** * src/parser.py *)
(* ================================================================= *)

Module Parser.
Import Py Re config logging.

(** An exception is modelled by [None]; [x <- e ;; k] propagates it. *)
Definition bind {A B : Type} (m : option A) (f : A -> option B) : option B :=
  match m with Some a => f a | None => None end.

Notation "x <- e ;; k" := (bind e (fun x => k))
  (at level 61, e at next level, right associativity).

(** The result of [_extract_pack]: the dict with keys 'qty' and 'unit'.
    The empty string of the source is [None] for the number and [[]] for
    the unit. *)
Record Pack := { qty : option Z; unit_ : str }.

(** The result of [_extract_prices]: keys 'current', 'old', 'discount',
    'type'. *)
Record PriceInfo := {
  current : float;
  old : option float;
  discount : str;
  type_ : str
}.

(** A product dict; a field that the source sets to the empty string
    when it has no number is an [option]. *)
Record Product := {
  upload_ts : str;
  page_url : str;
  page_number : Z;
  source : str;
  product_title : str;
  brand : str;
  product_type : str;
  fat_pct : str;
  pack_qty : option Z;
  pack_unit : str;
  price_current : float;
  price_old : option float;
  discount_pct : str;
  price_per_l_or_kg_or_piece : option float;
  rating : option float;
  price_type : str
}.

(** What the code reads of a BeautifulSoup element: [get_text()] and the
    text of [element.parent], when there is one. *)
Record Element := { get_text : str; parent : option str }.

(** A parsed document: [soup.select(selector)]; [None] when it raises. *)
Definition Soup := str -> option (list Element).

(** Observable steps of the extractor, in order. *)
Inductive event :=
| EvBeautifulSoup                           (* BeautifulSoup(html, ...) *)
| EvStructured                              (* _extract_with_beautifulsoup *)
| EvSelect (selector : str)                 (* soup.select(selector) *)
| EvParseElement (selector : str) (e : Element)   (* _parse_element *)
| EvRegex                                   (* _extract_with_regex *)
| EvLog (l : level) (msg : str).

(** ** Patterns *)

(** [\d{lo,hi}(?:[.,]\d{2})?] *)
Definition amount (lo hi : nat) : regex :=
  seq [times dig lo hi; ROpt (seq [one (cls (chars ".,")); times dig 2 2])].

(** [(?:грн|₴)] *)
Definition currency : regex := RAlt (lit "грн") (lit "₴").

(** [[0-9]+(?:[.,][0-9]+)?] *)
Definition number : regex :=
  seq [plus (cls [range "0" "9"]);
       ROpt (seq [one (cls (chars ".,")); plus (cls [range "0" "9"])])].

(** The cyrillic letters and apostrophes listed in the two title classes,
    in the order of the source text. *)
Definition cyr_lower_upper : list citem :=
  [range "А" "Я"; range "а" "я"] ++ chars "ЁёІіЇїЄєҐґ".

(** The pattern of [_extract_with_regex], read as the text between the
    outer quotes of its source line, so that the apostrophe which follows
    U+02BC is a member of the class like the characters around it:
    [([\w\s\-\.А-Яа-яЁёІіЇїЄєҐґ\'ʼ'`]{5,200}?)\s*(\d{1,4}(?:[.,]\d{2})?)\s*(?:грн|₴)] *)
Definition price_pattern : regex :=
  seq [RGroup 1 (times_lazy
                   (cls ([CWord; CSpace] ++ chars "-." ++ cyr_lower_upper
                         ++ chars "'ʼ'`")) 5 200);
       star spc;
       RGroup 2 (amount 1 4);
       star spc;
       currency].

(** [\s+] *)
Definition spaces : regex := plus spc.

(** [\d{1,4}(?:[.,]\d{2})?\s*(?:грн|₴)] of [_extract_title] *)
Definition title_price : regex := seq [amount 1 4; star spc; currency].

(** [(\d{2,4}(?:[.,]\d{2})?)\s*(?:грн|₴)] of [_extract_prices] *)
Definition price_regex : regex :=
  seq [RGroup 1 (amount 2 4); star spc; currency].

(** [-\s*(\d{1,2})%] *)
Definition discount_regex : regex :=
  seq [lit "-"; star spc; RGroup 1 (times dig 1 2); lit "%"].

(** [«([^»]{2,30})»] *)
Definition guillemets : regex :=
  seq [lit "«"; RGroup 1 (times (ncls (chars "»")) 2 30); lit "»"].

(** [^([A-ZА-ЯЁІЇЄҐ][\wА-Яа-яЁёІіЇїЄєҐґ\-\'ʼ'`]{1,25})], read in the
    same way. *)
Definition capitalized : regex :=
  seq [RBol;
       RGroup 1 (seq
         [one (cls ([range "A" "Z"; range "А" "Я"] ++ chars "ЁІЇЄҐ"));
          times (cls ([CWord] ++ cyr_lower_upper ++ chars "-'ʼ'`")) 1 25])].

(** The two patterns of [_extract_fat]. *)
Definition fat_patterns : list regex :=
  [ seq [RGroup 1 number; star spc; lit "%"];
    seq [lit "жир"; star (ncls [range "0" "9"]); RGroup 1 number] ].

(** The table of [_extract_pack]: regex, unit, multiplier. *)
Definition pack_patterns : list (regex * str * Z) :=
  [ (seq [RGroup 1 number; star spc; lit "л"; RWordB], u "мл", 1000%Z);
    (seq [RGroup 1 (times (cls [range "0" "9"]) 2 4); star spc; lit "мл";
          RWordB], u "мл", 1%Z);
    (seq [RGroup 1 (times (cls [range "0" "9"]) 2 4); star spc; lit "г";
          RWordB], u "г", 1%Z);
    (seq [RGroup 1 (times (cls [range "0" "9"]) 1 3); star spc; lit "шт"],
     u "шт", 1%Z);
    (seq [RGroup 1 number; star spc; lit "кг"], u "г", 1000%Z) ].

(** [[1-5](?:[.,][0-9])?] *)
Definition stars_number : regex :=
  seq [one (cls [range "1" "5"]);
       ROpt (seq [one (cls (chars ".,")); one (cls [range "0" "9"])])].

Definition rating_patterns : list regex :=
  [ seq [lit "★"; star spc; RGroup 1 stars_number];
    seq [lit "⭐"; star spc; RGroup 1 stars_number];
    seq [RGroup 1 stars_number; star spc; RAlt (lit "★") (lit "⭐")] ].

(** The double quote, which a literal of this file cannot hold. *)
Definition dq : str := [34%N].

Definition selectors : list str :=
  [ u "h3";
    u "[class*=" ++ dq ++ u "product" ++ dq ++ u "]";
    u "[class*=" ++ dq ++ u "item" ++ dq ++ u "]";
    u "a[href*=" ++ dq ++ u "/product/" ++ dq ++ u "]";
    u "div.product" ].

Section Normalizers.
Context {U : Unicode} (cfg : Config).

(** ** Text helpers *)

Definition _clean_text (text : str) : str :=
  strip (sub false spaces (u " ")
           (replace CR (ch " ") (replace LF (ch " ") text))).

(** [float(str(s).replace(',', '.'))], and 0 when the conversion fails. *)
Definition _to_num (s : str) : float :=
  match float_of_str (replace (ch ",") (ch ".") s) with
  | Some x => x
  | None => S754_zero false
  end.

(** ** Field normalizers *)

Definition _extract_title (text : str) : option str :=
  let cleaned :=
    strip (sub false spaces (u " ")
             (replace TAB (ch " ")
                (replace CR (ch " ") (replace LF (ch " ") text)))) in
  let without_price := strip (sub false title_price [] cleaned) in
  let title := strip (slice_to 200 without_price) in
  match title with
  | [] => None
  | _ => if (List.length title <? 3)%nat then None else Some title
  end.

Definition in_bounds (price : float) : bool :=
  flt (float_of_Z 5) price && flt price (float_of_Z 2000).

Definition _extract_prices (text : str) : option PriceInfo :=
  let prices :=
    filter in_bounds
      (map (fun m => _to_num (group 1 m)) (finditer false price_regex text)) in
  match prices with
  | [] => None
  | current :: rest =>
      match search false discount_regex text, rest with
      | Some discount_match, second :: _ =>
          Some {| current := current; old := Some second;
                  discount := group 1 discount_match;
                  type_ := u "discount" |}
      | _, _ =>
          Some {| current := current; old := None; discount := [];
                  type_ := u "regular" |}
      end
  end.

Definition exclude : list str :=
  map u [ "Молоко"; "Вершки"; "Кефір"; "Сметана"; "Йогурт"; "Масло";
          "Маргарин" ]%string.

Definition mem (x : str) (l : list str) : bool := existsb (str_eqb x) l.

Definition _extract_brand (title : str) : str :=
  match search false guillemets title with
  | Some m => group 1 m
  | None =>
      let title_lower := lower title in
      match find (fun b => contains (lower b) title_lower) (KNOWN_BRANDS cfg) with
      | Some b => b
      | None =>
          match re_match false capitalized title with
          | Some m =>
              let b := strip (group 1 m) in
              if negb (mem b exclude) && (2 <? List.length b)%nat then b else []
          | None => []
          end
      end
  end.

Definition _extract_product_type (title : str) : str :=
  let title_lower := lower title in
  match find (fun kv => existsb (fun keyword => contains keyword title_lower)
                          (snd kv)) (PRODUCT_TYPES cfg) with
  | Some kv => fst kv
  | None => []
  end.

Fixpoint first_fat (patterns : list regex) (title : str) : str :=
  match patterns with
  | [] => []
  | pattern :: rest =>
      match search true pattern title with
      | Some m =>
          let fat := replace (ch ",") (ch ".") (group 1 m) in
          match float_of_str fat with
          | Some fat_num =>
              if fle (float_of_Z 0) fat_num && fle fat_num (float_of_Z 50)
              then fat else first_fat rest title
          | None => first_fat rest title
          end
      | None => first_fat rest title
      end
  end.

Definition _extract_fat (title : str) : str := first_fat fat_patterns title.

(** [int(round(_to_num(...) * multiply))] may raise on an infinite
    product, which leaves [_extract_pack] as an exception. *)
Fixpoint first_pack (patterns : list (regex * str * Z)) (title : str)
    : option Pack :=
  match patterns with
  | [] => Some {| qty := None; unit_ := [] |}
  | (regex, unit, multiply) :: rest =>
      match search true regex title with
      | Some m =>
          x <- float_mul_int (_to_num (group 1 m)) multiply ;;
          q <- round x ;;
          Some {| qty := if (0 <? q)%Z then Some q else None; unit_ := unit |}
      | None => first_pack rest title
      end
  end.

Definition _extract_pack (title : str) : option Pack :=
  first_pack pack_patterns title.

Fixpoint first_rating (patterns : list regex) (text : str) : option float :=
  match patterns with
  | [] => None
  | pattern :: rest =>
      match search false pattern text with
      | Some m =>
          let rating := _to_num (group 1 m) in
          if fle (float_of_Z 1) rating && fle rating (float_of_Z 5)
          then Some rating else first_rating rest text
      | None => first_rating rest text
      end
  end.

Definition _extract_rating (text : str) : option float :=
  first_rating rating_patterns text.

(** [round(x * 100) / 100] *)
Definition round2 (x : float) : option float :=
  y <- float_mul_int x 100 ;;
  n <- round y ;;
  int_truediv n 100.

(** The outer [option] of the body is the exception caught by the bare
    [except]; the result [None] is the empty string of the source. *)
Definition _calculate_price_per_unit (price : float) (pack : Pack)
    : option float :=
  match qty pack with
  | None => None
  | Some q =>
      if negb (float_truthy price) || (q =? 0)%Z then None
      else
        let body : option (option float) :=
          if str_eqb (unit_ pack) (u "шт") then
            x <- float_div_int price q ;;
            r <- round2 x ;;
            Some (Some r)
          else
            base_qty <- int_truediv q 1000 ;;
            if fle base_qty (float_of_Z 0) then Some None
            else
              x <- float_truediv price base_qty ;;
              r <- round2 x ;;
              Some (Some r)
        in
        match body with
        | Some r => r
        | None => None
        end
  end.

(** ** Element-to-record parsing *)

Section Extraction.
(** The arguments [page_url], [batch_stamp] and [page_number] that the
    entry point hands down unchanged. *)
Variables (arg_page_url arg_batch_stamp : str) (arg_page_number : Z).

Definition site : str := u "https://silpo.ua".

Definition _parse_element (element : Element) : option Product :=
  let text := get_text element in
  match _extract_title text with
  | None => None
  | Some title =>
      if (List.length title <? 5)%nat then None
      else
        let full_text :=
          text ++ u " " ++
          match parent element with Some t => t | None => [] end in
        match _extract_prices full_text with
        | None => None
        | Some price_info =>
            if negb (float_truthy (current price_info)) then None
            else
              let brand := _extract_brand title in
              let product_type := _extract_product_type title in
              let fat := _extract_fat title in
              (* an exception of _extract_pack is caught: return None *)
              pack <- _extract_pack title ;;
              let rating := _extract_rating full_text in
              Some {| upload_ts := arg_batch_stamp;
                      page_url := arg_page_url;
                      page_number := arg_page_number;
                      source := site;
                      product_title := title;
                      brand := brand;
                      product_type := product_type;
                      fat_pct := fat;
                      pack_qty := qty pack;
                      pack_unit := unit_ pack;
                      price_current := current price_info;
                      price_old := old price_info;
                      discount_pct := discount price_info;
                      price_per_l_or_kg_or_piece :=
                        _calculate_price_per_unit (current price_info) pack;
                      rating := rating;
                      price_type := type_ price_info |}
        end
  end.

(** ** Structured-markup strategy *)

(** The inner loop: [_parse_element] on every element, keeping the
    records. *)
Fixpoint parse_elements (selector : str) (elements : list Element)
    (products : list Product) : list Product * list event :=
  match elements with
  | [] => (products, [])
  | element :: rest =>
      let products' :=
        match _parse_element element with
        | Some product => products ++ [product]
        | None => products
        end in
      let '(out, tr) := parse_elements selector rest products' in
      (out, EvParseElement selector element :: tr)
  end.

(** The loop over the selectors; [products] is the list shared by the
    iterations. *)
Fixpoint try_selectors (soup : Soup) (sels : list str)
    (products : list Product) : list Product * list event :=
  match sels with
  | [] => (products, [])
  | selector :: rest =>
      match soup selector with
      | None =>                      (* soup.select raised: continue *)
          let '(out, tr) := try_selectors soup rest products in
          (out, EvSelect selector :: tr)
      | Some elements =>
          if (3 <? List.length elements)%nat then
            let '(products', tr1) := parse_elements selector elements products in
            match products' with
            | _ :: _ => (products', EvSelect selector :: tr1)
            | [] =>
                let '(out, tr) := try_selectors soup rest products' in
                (out, EvSelect selector :: tr1 ++ tr)
            end
          else
            let '(out, tr) := try_selectors soup rest products in
            (out, EvSelect selector :: tr)
      end
  end.

Definition _extract_with_beautifulsoup (soup : Soup)
    : list Product * list event :=
  try_selectors soup selectors [].

(** ** Pattern-mining strategy *)

(** One iteration of the loop over the matches; the state is
    [seen_titles] and [products]. *)
Definition regex_step (st : list str * list Product) (m : rmatch)
    : list str * list Product :=
  let '(seen_titles, products) := st in
  let title_raw := group 1 m in
  let price_str := group 2 m in
  let title := _clean_text title_raw in
  match title with
  | [] => st
  | _ =>
      if (List.length title <? 5)%nat || (200 <? List.length title)%nat then st
      else if mem title seen_titles then st
      else
        let seen_titles := title :: seen_titles in
        let price := _to_num price_str in
        if flt price (float_of_Z 5) || flt (float_of_Z 2000) price
        then (seen_titles, products)
        else
          let brand := _extract_brand title in
          let product_type := _extract_product_type title in
          let fat := _extract_fat title in
          match _extract_pack title with
          | None => (seen_titles, products)     (* caught: continue *)
          | Some pack =>
              (seen_titles,
               products ++
               [ {| upload_ts := arg_batch_stamp;
                    page_url := arg_page_url;
                    page_number := arg_page_number;
                    source := site;
                    product_title := title;
                    brand := brand;
                    product_type := product_type;
                    fat_pct := fat;
                    pack_qty := qty pack;
                    pack_unit := unit_ pack;
                    price_current := price;
                    price_old := None;
                    discount_pct := [];
                    price_per_l_or_kg_or_piece :=
                      _calculate_price_per_unit price pack;
                    rating := None;
                    price_type := u "regular" |} ])
          end
  end.

Definition _extract_with_regex (html : str) : list Product :=
  snd (fold_left regex_step (finditer false price_pattern html) ([], [])).

(** ** Entry point *)

(** [HAS_BS4] tells whether the import of bs4 succeeded, and
    [BeautifulSoup] is the constructor: the parsed document, or the text
    of the exception it raises. *)
Variable HAS_BS4 : bool.
Variable BeautifulSoup : str -> str + Soup.

Definition found (what : string) (n : nat) : str :=
  u what ++ str_of_Z (Z.of_nat n) ++ u " products".

Definition regex_strategy (html : str) : list Product * list event :=
  let products := _extract_with_regex html in
  match products with
  | _ :: _ =>
      (products,
       [EvRegex;
        EvLog INFO (found "✓ Regex strategy found " (List.length products))])
  | [] =>
      ([], [EvRegex;
            EvLog WARNING (u "⚠ No products extracted using any strategy")])
  end.

(** The events that belong to one of the two strategies. *)
Definition strategy_event (e : event) : bool :=
  match e with
  | EvLog _ _ => false
  | _ => true
  end.

Definition extract_products (html : str) : list Product * list event :=
  if (List.length html <? 1000)%nat
  then ([], [EvLog WARNING (u "HTML too short to parse")])
  else if HAS_BS4 then
    match BeautifulSoup html with
    | inr soup =>
        let '(products, tr) := _extract_with_beautifulsoup soup in
        match products with
        | _ :: _ =>
            (products,
             EvBeautifulSoup :: EvStructured :: tr ++
             [EvLog INFO (found "✓ BeautifulSoup found "
                            (List.length products))])
        | [] =>
            let '(out, tr2) := regex_strategy html in
            (out, EvBeautifulSoup :: EvStructured :: tr ++ tr2)
        end
    | inl e =>
        let '(out, tr2) := regex_strategy html in
        (out,
         EvBeautifulSoup
         :: EvLog WARNING (u "BeautifulSoup strategy failed: " ++ e) :: tr2)
    end
  else regex_strategy html.

End Extraction.
End Normalizers.

(** ** What a trace shows *)


(** ** Shapes of a title *)

(** Every white space character is the plain space U+0020. *)
Definition plain_spaces {U : Unicode} (s : str) : Prop :=
  Forall (fun c => isspace c = true -> c = ch " ") s.

(** No tab, carriage return or line feed. *)
Definition no_controls (s : str) : Prop :=
  Forall (fun c => c <> TAB /\ c <> CR /\ c <> LF) s.

(** No white space at either end. *)
Definition stripped {U : Unicode} (s : str) : Prop :=
  lstrip s = s /\ lstrip (rev s) = rev s.

(** White space comes one character at a time, as a plain space;
    [after_space] tells that a white space character comes just before. *)
Fixpoint single_spaced {U : Unicode} (after_space : bool) (s : str) : Prop :=
  match s with
  | [] => True
  | c :: rest =>
      if isspace c
      then c = ch " " /\ after_space = false /\ single_spaced true rest
      else single_spaced false rest
  end.

(** Every run of white space replaced by one plain space; [in_run] tells
    that the run has begun. *)
Fixpoint collapse_runs {U : Unicode} (in_run : bool) (s : str) : str :=
  match s with
  | [] => []
  | c :: rest =>
      if isspace c
      then if in_run then collapse_runs true rest
           else ch " " :: collapse_runs true rest
      else c :: collapse_runs false rest
  end.

(** The number of white space characters at the head of a string. *)
Fixpoint leading_spaces {U : Unicode} (s : str) : nat :=
  match s with
  | c :: rest => if isspace c then S (leading_spaces rest) else 0
  | [] => 0
  end.

(** ** The records of a selector *)

(** The records of the elements that parse, in the order of the
    elements. *)
Definition records_of {U : Unicode} (cfg : Config)
    (arg_page_url arg_batch_stamp : str) (arg_page_number : Z)
    (elements : list Element) : list Product :=
  flat_map (fun element =>
              match _parse_element cfg arg_page_url arg_batch_stamp
                      arg_page_number element with
              | Some product => [product]
              | None => []
              end) elements.

(** A selector is productive when it matches more than 3 elements of
    which at least one parses. *)
Definition productive {U : Unicode} (cfg : Config)
    (arg_page_url arg_batch_stamp : str) (arg_page_number : Z)
    (soup : Soup) (selector : str) : Prop :=
  exists elements,
    soup selector = Some elements /\ (3 < List.length elements)%nat /\
    records_of cfg arg_page_url arg_batch_stamp arg_page_number elements <> [].

(** The state of the pattern strategy, the titles seen and the records:
    the titles of the records are distinct and all among the titles
    seen, and every record has the property [Q]. *)
Definition mined_state (Q : Product -> Prop) (st : list str * list Product)
    : Prop :=
  NoDup (map product_title (snd st)) /\
  (forall p, In p (snd st) -> In (product_title p) (fst st)) /\
  Forall Q (snd st).

(** ** The documented unit price

    Written after the description of the field, to be compared with
    [_calculate_price_per_unit]: empty if price or quantity is absent; for
    pieces the price divided by the quantity; otherwise the price divided
    by the quantity taken in thousands, empty if that divisor is not
    positive; rounded to 2 decimals in both cases.  An operation that has
    no value (a division by zero, an overflow) gives an empty field. *)




End Parser.

(* ================================================================= *)
(** * src/scraper.py *)
(* ================================================================= *)

Module Scraper.
Import Py config logging.

(** What the code reads of a [requests] response. *)
Record Response := { status_code : Z; text : str }.

(** One call of [self.session.get]: a response, or an exception. *)
Inductive outcome :=
| Responded (r : Response)
| Timeout                          (* requests.exceptions.Timeout *)
| ConnectionError (msg : str)      (* requests.exceptions.ConnectionError *)
| OtherException (msg : str).      (* any other Exception, with str(error) *)

(** The pieces of a formatted log line. *)
Inductive frag := Text (s : str) | FloatArg (x : float).

Inductive event :=
| EvGet (url : str) (attempt : Z)
| EvSleep (delay : float)
| EvLog (l : level) (msg : list frag).

Section Fetch.
Context {U : Unicode} (cfg : Config).

(** The network, as seen by one call of [fetch_page]: the outcome of the
    request made by each attempt. *)
Variable session_get : Z -> outcome.

(** The checks made on a response inside the [try]: the text of the
    exception they raise, or the body. *)
Definition check_response (response : Response) : str + str :=
  let code := status_code response in
  let body := text response in
  if (code =? 404)%Z then inl (u "HTTP 404 - Page not found")
  else if (code =? 403)%Z
  then inl (u "HTTP 403 - Access forbidden (site may be blocking us)")
  else if (code =? 429)%Z
  then inl (u "HTTP 429 - Rate limited (too many requests)")
  else if (400 <=? code)%Z then inl (u "HTTP " ++ str_of_Z code)
  else if (List.length body <? 1000)%nat
  then inl (u "Empty/short response ("
            ++ str_of_Z (Z.of_nat (List.length body)) ++ u " chars)")
  else if negb (contains (u "DOCTYPE") (slice_to 500 body))
          && negb (contains (u "<html") (slice_to 500 body))
  then inl (u "Response doesn't contain valid HTML")
  else inr body.

(** The body of the [try] with its three handlers: the new [last_error]
    and the warning that is logged, or the page. *)
Definition try_attempt (attempt : Z) : (str * str) + str :=
  match session_get attempt with
  | Timeout =>
      inl (u "Request timeout (15s exceeded)",
           u "  Timeout on attempt " ++ str_of_Z attempt)
  | ConnectionError e =>
      inl (u "Connection error: " ++ e,
           u "  Connection error on attempt " ++ str_of_Z attempt)
  | OtherException e =>
      inl (e, u "  Attempt " ++ str_of_Z attempt ++ u " failed: " ++ e)
  | Responded response =>
      match check_response response with
      | inl e =>
          inl (e, u "  Attempt " ++ str_of_Z attempt ++ u " failed: " ++ e)
      | inr body => inr body
      end
  end.

(** [str(last_error)] inside the final f-string. *)
Definition show_error (last_error : option str) : str :=
  match last_error with Some e => e | None => u "None" end.

(** [config.RETRY_DELAY * attempt].  (The conversion of [attempt] to a
    float is total below 2^1024.) *)
Definition backoff (attempt : Z) : float :=
  fmul (RETRY_DELAY cfg) (float_of_Z attempt).

(** The [for] loop over the remaining attempt numbers. *)
Fixpoint attempts (url : str) (max_attempts : Z) (todo : list Z)
    (last_error : option str) : option str * list event :=
  match todo with
  | [] =>
      (None,
       [EvLog ERROR [Text (u "✗ Failed after " ++ str_of_Z max_attempts
                           ++ u " attempts: " ++ show_error last_error)]])
  | attempt :: rest =>
      match try_attempt attempt with
      | inr body =>
          (Some body,
           [EvGet url attempt;
            EvLog INFO [Text (u "✓ Successfully fetched "
                              ++ str_of_Z (Z.of_nat (List.length body))
                              ++ u " chars")]])
      | inl (e, warning) =>
          let pause :=
            if (attempt <? max_attempts)%Z then
              let delay := backoff attempt in
              [EvLog INFO [Text (u "  Waiting "); FloatArg delay;
                           Text (u "s before retry...")];
               EvSleep delay]
            else [] in
          let '(result, tr) := attempts url max_attempts rest (Some e) in
          (result,
           EvGet url attempt :: EvLog WARNING [Text warning] :: pause ++ tr)
      end
  end.

(** [range(1, max_attempts + 1)] *)
Definition attempt_numbers (max_attempts : Z) : list Z :=
  map Z.of_nat (List.seq 1 (Z.to_nat max_attempts)).

Definition fetch_page (url : str) (max_attempts : Z)
    : option str * list event :=
  attempts url max_attempts (attempt_numbers max_attempts) None.

(** The reason with which an attempt fails, if it fails. *)
Definition failure (attempt : Z) : option str :=
  match try_attempt attempt with
  | inl (e, _) => Some e
  | inr _ => None
  end.

Definition fails (attempt : Z) : bool :=
  match failure attempt with Some _ => true | None => false end.

(** The attempts of a list before the first that succeeds. *)
Fixpoint failed_prefix (todo : list Z) : list Z :=
  match todo with
  | [] => []
  | k :: rest => if fails k then k :: failed_prefix rest else []
  end.

(** The attempts of a list up to and including the first that
    succeeds. *)
Fixpoint made (todo : list Z) : list Z :=
  match todo with
  | [] => []
  | k :: rest => if fails k then k :: made rest else [k]
  end.

End Fetch.

(** What the attempt to render the page with Selenium comes to: the
    import fails, a step after the imports raises, or the page source is
    read. *)
Inductive rendering :=
| NotInstalled                     (* ImportError *)
| Failed (msg : str)               (* any other Exception, with str(e) *)
| Rendered (html : str).

(** [fetch_page_selenium]: the page source, or else what [fetch_page]
    returns with its default of 3 attempts. *)
Definition fetch_page_selenium {U : Unicode} (cfg : Config)
    (session_get : Z -> outcome) (selenium : rendering) (url : str)
    : option str * list event :=
  let started :=
    EvLog INFO [Text (u "🎬 Using Selenium for JavaScript rendering...")] in
  match selenium with
  | Rendered html =>
      (Some html,
       [started;
        EvLog INFO [Text (u "✓ Selenium fetched "
                          ++ str_of_Z (Z.of_nat (List.length html))
                          ++ u " chars")]])
  | NotInstalled =>
      let '(result, tr) := fetch_page cfg session_get url 3 in
      (result,
       EvLog WARNING
         [Text (u "⚠ Selenium not installed, falling back to requests")]
       :: tr)
  | Failed e =>
      let '(result, tr) := fetch_page cfg session_get url 3 in
      (result,
       started
       :: EvLog WARNING
            [Text (u "⚠ Selenium failed: " ++ e
                   ++ u ", falling back to requests")]
       :: tr)
  end.

(** The network answering with a given list of outcomes, one per attempt
    (and timing out afterwards). *)
Definition answers (l : list outcome) (attempt : Z) : outcome :=
  nth (Z.to_nat (attempt - 1)) l Timeout.

(** ** What a trace shows *)

Definition sleeps (tr : list event) : list float :=
  flat_map (fun e => match e with EvSleep x => [x] | _ => [] end) tr.

Definition requests (tr : list event) : list Z :=
  flat_map (fun e => match e with EvGet _ k => [k] | _ => [] end) tr.

(** The requests and the pauses, in the order in which they happen. *)
Definition timeline (tr : list event) : list (Z + float) :=
  flat_map (fun e => match e with
                     | EvGet _ k => [inl k]
                     | EvSleep x => [inr x]
                     | EvLog _ _ => []
                     end) tr.

Definition errors (tr : list event) : list (list frag) :=
  flat_map (fun e => match e with EvLog ERROR m => [m] | _ => [] end) tr.

End Scraper.

(* ================================================================= *)
(** * src/main.py *)
(* ================================================================= *)

Module Main.
Import Py Re config logging Parser Scraper.

(** [[?&]page=(\d+)] *)
Definition page_param : regex :=
  seq [one (cls (chars "?&")); lit "page="; RGroup 1 (plus dig)].

(** The link pattern of method 2, under re.DOTALL: an anchor whose href
    holds [page=(\d+)] and whose text holds digits. *)
Definition page_link : regex :=
  seq [lit "<a"; star (ncls (chars ">")); lit "href="; one (ALit 34%N);
       star (ncls [CChar 34%N]); lit "page="; RGroup 1 (plus dig);
       star (ncls [CChar 34%N]); one (ALit 34%N); star (ncls (chars ">"));
       lit ">"; star_lazy AAny; RGroup 2 (plus dig); star_lazy AAny;
       lit "</a>"].

Section Pagination.
Context {U : Unicode} (cfg : Config).

(** [re.findall] with one group, and with two. *)
Definition findall1 (r : regex) (html : str) : list str :=
  map (group 1) (finditer false r html).

Definition findall2 (r : regex) (html : str) : list (str * str) :=
  map (fun m => (group 1 m, group 2 m)) (finditer false r html).

(** [[int(p) for p in l]]; [None] when a conversion raises. *)
Fixpoint ints (l : list str) : option (list Z) :=
  match l with
  | [] => Some []
  | p :: rest =>
      n <- int_of_str p ;;
      ns <- ints rest ;;
      Some (n :: ns)
  end.

(** [max] of a list that is not empty. *)
Definition max_list (l : list Z) : Z := fold_left Z.max (tl l) (hd 0%Z l).

Definition pages_found (how : string) (n : Z) : event :=
  EvLog INFO [Text (u how ++ str_of_Z n ++ u " pages")].

(** The three methods, after the page was fetched.  The outer [option]
    is an exception, which the handler of [find_last_page] catches. *)
Definition detect (html : str) : option (Z * list event) :=
  let page_matches := findall1 page_param html in
  method1 <-
    match page_matches with
    | [] => Some None
    | _ =>
        ns <- ints page_matches ;;
        let max_page := max_list ns in
        Some (if (max_page <=? MAX_PAGES cfg)%Z then Some max_page else None)
    end ;;
  match method1 with
  | Some max_page =>
      Some (max_page,
            [pages_found "  Found pagination via URL params: " max_page])
  | None =>
      let link_matches := findall2 page_link html in
      method2 <-
        match link_matches with
        | [] => Some None
        | _ =>
            page_nums <- ints (map fst link_matches) ;;
            let max_page :=
              match page_nums with [] => 1%Z | _ => max_list page_nums end in
            Some (if (max_page <=? MAX_PAGES cfg)%Z then Some max_page
                  else None)
        end ;;
      match method2 with
      | Some max_page =>
          Some (Z.min max_page (MAX_PAGES cfg),
                [pages_found "  Found pagination via link text: " max_page])
      | None =>
          if contains (u "page=") html
          then Some (Z.min 10 (MAX_PAGES cfg),
                     [EvLog INFO [Text (u "  Found pagination markers")]])
          else Some (1%Z,
                     [EvLog WARNING
                        [Text (u "  No pagination detected, using default")]])
      end
  end.

(** What [find_last_page] does with the value [fetch_page] returned. *)
Definition last_page_of (html : option str) : Z * list event :=
  match html with
  | None | Some [] =>
      (Z.min 10 (MAX_PAGES cfg),
       [EvLog WARNING
          [Text (u "Could not fetch first page for pagination detection")]])
  | Some html =>
      match detect html with
      | Some r => r
      | None =>
          (Z.min 5 (MAX_PAGES cfg),
           (* the text of the exception follows the colon in the source *)
           [EvLog ERROR [Text (u "Failed to find last page: ")]])
      end
  end.

Definition find_last_page (session_get : Z -> outcome) : Z * list event :=
  let '(html, tr) :=
    fetch_page cfg session_get (BASE_URL cfg) (RETRY_ATTEMPTS cfg) in
  let '(n, tr2) := last_page_of html in
  (n, tr ++ tr2).

(** [test_connectivity]; [fetch_page] raises nothing, so that the
    handler is never entered. *)
Definition test_connectivity (session_get : Z -> outcome) : bool * list event :=
  let '(html, tr) := fetch_page cfg session_get (BASE_URL cfg) 2 in
  (match html with
   | Some html => (500 <? List.length html)%nat
   | None => false
   end, tr).

Definition generate_page_urls (max_page : Z) : list str :=
  map (fun p => if (p =? 1)%Z then BASE_URL cfg
                else BASE_URL cfg ++ u "?page=" ++ str_of_Z p)
      (map Z.of_nat (List.seq 1 (Z.to_nat max_page))).

End Pagination.

(** ** The run *)

(** The counters of [self.stats]; [elapsed_time], which is read off the
    clock, is left out. *)
Record Stats := {
  total_products : Z;
  pages_success : Z;
  pages_failed : Z;
  pages_processed : Z
}.

(** The message of a row of the log file: a text, or
    [json.dumps(self.stats)]. *)
Inductive log_message := Plain (s : str) | StatsJson (s : Stats).

(** A row handed to [Storage.append_log]; the column [ts], read off the
    clock, is left out. *)
Record LogRow := {
  step : str;
  stage : str;
  message : log_message;
  url : str;
  status : str
}.

(** What a run does to the world outside: the calls of the fetcher and
    of the extractor with their own traces, the pauses between the
    pages, the rows and the records handed to [Storage], and the closing
    of the session.  The lines that [run] itself writes to the logger
    show paths and the clock and are left out. *)
Inductive effect :=
| EnsureDirectories
| Net (e : Scraper.event)
| Parse (e : Parser.event)
| Sleep (delay : float)
| AppendLog (row : LogRow)
| SaveProducts (products : list Product)
| Close.

(** The outcome of [run]: the status of [sys.exit], if it is called,
    the counters, and the effects in their order. *)
Record Run := {
  exit_code : option Z;
  stats : Stats;
  effects : list effect
}.

Section Running.
Context {U : Unicode} (cfg : Config).

(** The world of a run: the network as seen by each call of
    [fetch_page] (call 0 by the connectivity test, call 1 by the
    pagination discovery, call 2 + i for the page of index i), the
    rendering of the first page by Selenium, the text of the exception
    that [time.sleep] raises for a delay, if it raises, the parser
    library and the stamp of the batch. *)
Variable net : nat -> Z -> outcome.
Variable selenium : rendering.
Variable time_sleep : float -> option str.
Variable HAS_BS4 : bool.
Variable BeautifulSoup : str -> str + Soup.
Variable batch_stamp : str.

(** The handler of the loop: the page counts as failed and a row says
    why. *)
Definition page_failed (all_products : list Product) (counters : Stats)
    (page_num : Z) (page : str) (error : str) (tr : list effect)
    : (list Product * Stats) * list effect :=
  ((all_products,
    {| total_products := total_products counters;
       pages_success := pages_success counters;
       pages_failed := pages_failed counters + 1;
       pages_processed := pages_processed counters |}),
   tr ++ [AppendLog {| step := u "ERROR";
                       stage := u "page_" ++ str_of_Z page_num;
                       message := Plain error;
                       url := page;
                       status := u "failed" |}]).

(** The body of the loop over the pages, for the page of index [i]
    among [n]. *)
Definition scrape_page (n i : nat) (page : str)
    (st : list Product * Stats) : (list Product * Stats) * list effect :=
  let '(all_products, counters) := st in
  let page_num := (Z.of_nat i + 1)%Z in
  let counters :=
    {| total_products := total_products counters;
       pages_success := pages_success counters;
       pages_failed := pages_failed counters;
       pages_processed := page_num |} in
  let '(html, tr) :=
    if (i =? 0)%nat then fetch_page_selenium cfg (net 2) selenium page
    else fetch_page cfg (net (2 + i)) page (RETRY_ATTEMPTS cfg) in
  match html with
  | None | Some [] =>
      page_failed all_products counters page_num page
        (u "Failed to fetch HTML") (map Net tr)
  | Some html =>
      let '(products, ptr) :=
        extract_products cfg page batch_stamp page_num HAS_BS4 BeautifulSoup
          html in
      let '(all_products, counters) :=
        match products with
        | [] => (all_products, counters)
        | _ =>
            (all_products ++ products,
             {| total_products := total_products counters;
                pages_success := pages_success counters + 1;
                pages_failed := pages_failed counters;
                pages_processed := pages_processed counters |})
        end in
      let tr :=
        map Net tr ++ map Parse ptr ++
        [AppendLog {| step := u "PARSE";
                      stage := u "page_" ++ str_of_Z page_num ++ u "/"
                               ++ str_of_Z (Z.of_nat n);
                      message :=
                        Plain (u "Extracted "
                               ++ str_of_Z (Z.of_nat (List.length products))
                               ++ u " products");
                      url := page;
                      status := u "success" |}] in
      if (Z.of_nat i <? Z.of_nat n - 1)%Z then
        match time_sleep (REQUEST_DELAY cfg) with
        | None => ((all_products, counters), tr ++ [Sleep (REQUEST_DELAY cfg)])
        | Some error =>
            page_failed all_products counters page_num page error tr
        end
      else ((all_products, counters), tr)
  end.

(** The loop over [enumerate(page_urls)], from index [i] on. *)
Fixpoint scrape_pages (n i : nat) (page_urls : list str)
    (st : list Product * Stats) : (list Product * Stats) * list effect :=
  match page_urls with
  | [] => (st, [])
  | page :: rest =>
      let '(st1, tr1) := scrape_page n i page st in
      let '(st2, tr2) := scrape_pages n (S i) rest st1 in
      (st2, tr1 ++ tr2)
  end.

Definition no_stats : Stats :=
  {| total_products := 0; pages_success := 0; pages_failed := 0;
     pages_processed := 0 |}.

(** [run], in the runs in which [Storage.ensure_directories] returns
    (it is called before the [try]).  Inside the [try] only the failed
    connectivity test raises: it leads to the row CRITICAL_ERROR and to
    [sys.exit(1)]; the [finally] closes the session in either case. *)
Definition run : Run :=
  let '(reachable, tr0) := test_connectivity cfg (net 0) in
  if negb reachable then
    {| exit_code := Some 1%Z;
       stats := no_stats;
       effects :=
         EnsureDirectories :: map Net tr0 ++
         [AppendLog
            {| step := u "CRITICAL_ERROR";
               stage := u "run_scraper";
               message :=
                 Plain (u "Cannot reach Silpo.ua - website may be blocked or down");
               url := u "N/A";
               status := u "failed" |};
          Close] |}
  else
    let '(max_page, tr1) := find_last_page cfg (net 1) in
    let page_urls := generate_page_urls cfg max_page in
    let '((all_products, counters), tr2) :=
      scrape_pages (List.length page_urls) 0 page_urls ([], no_stats) in
    let '(counters, tr3) :=
      match all_products with
      | [] => (counters, [])
      | _ =>
          ({| total_products := Z.of_nat (List.length all_products);
              pages_success := pages_success counters;
              pages_failed := pages_failed counters;
              pages_processed := pages_processed counters |},
           [SaveProducts all_products;
            AppendLog
              {| step := u "WRITE";
                 stage := u "save_csv";
                 message :=
                   Plain (u "Written "
                          ++ str_of_Z (Z.of_nat (List.length all_products))
                          ++ u " products");
                 url := u "N/A";
                 status := u "success" |}])
      end in
    {| exit_code := None;
       stats := counters;
       effects :=
         EnsureDirectories :: map Net tr0 ++ map Net tr1 ++ tr2 ++ tr3 ++
         [AppendLog {| step := u "DONE";
                       stage := u "run_scraper";
                       message := StatsJson counters;
                       url := u "N/A";
                       status := u "success" |};
          Close] |}.

End Running.

(** ** What the effects of a run show *)

Definition pauses (tr : list effect) : list float :=
  flat_map (fun e => match e with Sleep x => [x] | _ => [] end) tr.

Definition saved (tr : list effect) : list Product :=
  flat_map (fun e => match e with SaveProducts ps => ps | _ => [] end) tr.

Definition rows (tr : list effect) : list LogRow :=
  flat_map (fun e => match e with AppendLog r => [r] | _ => [] end) tr.

Definition fetched (tr : list effect) : list Z :=
  flat_map (fun e => match e with Net (EvGet _ k) => [k] | _ => [] end) tr.

End Main.

(* ================================================================= *)
(** * Concrete inputs *)
(* ================================================================= *)

Module Scenarios.
Import Py Re config logging Parser.

(** Without bs4 the constructor is never called. *)
Definition no_bs4 : str -> str + Soup := fun _ => inl [].

Definition milk : str := u "Молоко Яготинське 2.5% 1л 45.50 грн".

(** A page of 1053 characters with a product at 5 грн and one at
    2000 грн. *)
Definition page_price_5 : str :=
  u "<p>Молоко свіже 5 грн</p><p>Кефір свіжий 2000 грн</p>"
  ++ repeat (ch "<") 1000.

(** A page of 1022 characters with a product of 0 litres. *)
Definition page_zero_litres : str :=
  u "<p>Кефір 0л 30 грн</p>" ++ repeat (ch "<") 1000.

(** A page of 2000 characters. *)
Definition html_page : str :=
  u "<!DOCTYPE html><html>" ++ repeat (ch "x") 1979.

(** A network that answers every request with 403, and one that answers
    with 404. *)
Definition blocked : Z -> Scraper.outcome :=
  fun _ => Scraper.Responded {| Scraper.status_code := 403; Scraper.text := [] |}.

Definition missing : Z -> Scraper.outcome :=
  fun _ => Scraper.Responded {| Scraper.status_code := 404; Scraper.text := [] |}.

(** A document in which every selector matches the same four elements,
    each with the text of the milk scenario, and a page of 1000
    characters standing for its markup. *)
Definition milk_element : Element := {| get_text := milk; parent := None |}.

Definition milk_soup : Soup :=
  fun _ => Some [milk_element; milk_element; milk_element; milk_element].

Definition some_markup : str := repeat (ch "x") 1000.

(** The records of the milk document, for a batch stamp and the first
    page of the category, and the first of them. *)
Definition a_stamp : str := u "2025-01-01T00:00:00".

Definition milk_records : list Product :=
  fst (extract_products default (BASE_URL default) a_stamp 1 true
         (fun _ => inr milk_soup) some_markup).

Definition milk_record : Product :=
  {| upload_ts := a_stamp; page_url := BASE_URL default; page_number := 1;
     source := u "https://silpo.ua";
     product_title := u "Молоко Яготинське 2.5% 1л";
     brand := u "Яготинське"; product_type := u "молоко";
     fat_pct := u "2.5"; pack_qty := Some 1000%Z; pack_unit := u "мл";
     price_current := dec 4550 2; price_old := None; discount_pct := [];
     price_per_l_or_kg_or_piece := Some (dec 4550 2);
     rating := None; price_type := u "regular" |}.

(** A document whose elements also show a rating, and the record of
    its first element. *)
Definition rated_element : Element :=
  {| get_text := milk ++ u " ★ 4.5"; parent := None |}.

Definition rated_soup : Soup :=
  fun _ => Some [rated_element; rated_element; rated_element; rated_element].

Definition rated_record : Product :=
  {| upload_ts := a_stamp; page_url := BASE_URL default; page_number := 1;
     source := u "https://silpo.ua";
     product_title := u "Молоко Яготинське 2.5% 1л  ★ 4.5";
     brand := u "Яготинське"; product_type := u "молоко";
     fat_pct := u "2.5"; pack_qty := Some 1000%Z; pack_unit := u "мл";
     price_current := dec 4550 2; price_old := None; discount_pct := [];
     price_per_l_or_kg_or_piece := Some (dec 4550 2);
     rating := Some (dec 45 1); price_type := u "regular" |}.

(** The records that the pattern strategy mines from the page with the
    two boundary prices, and the first of them. *)
Definition mined_records : list Product :=
  _extract_with_regex default (BASE_URL default) a_stamp 1 page_price_5.

Definition mined_record : Product :=
  {| upload_ts := a_stamp; page_url := BASE_URL default; page_number := 1;
     source := u "https://silpo.ua";
     product_title := u "Молоко свіже";
     brand := []; product_type := u "молоко";
     fat_pct := []; pack_qty := None; pack_unit := [];
     price_current := float_of_Z 5; price_old := None; discount_pct := [];
     price_per_l_or_kg_or_piece := None;
     rating := None; price_type := u "regular" |}.

(** A page of 2000 characters that links to a second page, a network
    that answers every request with it, and the run in this world:
    Selenium is not installed, the pauses return, and the parser finds
    the milk document in every page. *)
Definition two_pages : str :=
  u "<!DOCTYPE html><html>?page=2 " ++ repeat (ch "x") 1971.

Definition online : nat -> Z -> Scraper.outcome :=
  fun _ _ =>
    Scraper.Responded {| Scraper.status_code := 200;
                         Scraper.text := two_pages |}.

Definition a_run : Main.Run :=
  Main.run default online Scraper.NotInstalled (fun _ => None) true
    (fun _ => inr milk_soup) a_stamp.

End Scenarios.

(* ================================================================= *)
(** * Properties *)
(* ================================================================= *)

Unset Implicit Arguments.

(** ** Scenarios of the field normalizers *)

Section ParserFacts.
Import Py Re config logging Parser Scenarios.

(** C8. The title "Молоко Яготинське 2.5% 1л 45.50 грн": the normalizers
    give brand "Яготинське", product type "молоко", fat "2.5", a
    pack of 1000 "мл"; the price found is 45.50 and the price per unit
    is 45.50.  The record parsed from an element with this text holds the
    same fields. *)
Theorem milk_scenario :
  _extract_brand default milk = u "Яготинське" /\
  _extract_product_type default milk = u "молоко" /\
  _extract_fat milk = u "2.5" /\
  _extract_pack milk = Some {| qty := Some 1000%Z; unit_ := u "мл" |} /\
  option_map current (_extract_prices milk) = Some (dec 4550 2) /\
  _calculate_price_per_unit (dec 4550 2)
    {| qty := Some 1000%Z; unit_ := u "мл" |} = Some (dec 4550 2) /\
  option_map
    (fun p => (product_title p, brand p, product_type p, fat_pct p,
               pack_qty p, pack_unit p, price_current p,
               price_per_l_or_kg_or_piece p))
    (_parse_element default [] [] 1 {| get_text := milk; parent := None |})
  = Some (u "Молоко Яготинське 2.5% 1л", u "Яготинське", u "молоко",
          u "2.5", Some 1000%Z, u "мл", dec 4550 2, Some (dec 4550 2)).
Proof. vm_compute. repeat split. Qed.

(** C2. The title "Кефір 0л" has a unit and no quantity: the litre
    pattern matches, the quantity 0 is blanked and the unit "мл" stays.
    The fallback strategy emits such a record. *)
Theorem pack_unit_without_quantity :
  _extract_pack (u "Кефір 0л") = Some {| qty := None; unit_ := u "мл" |} /\
  map (fun p => (product_title p, pack_qty p, pack_unit p))
      (fst (extract_products default [] [] 1 false no_bs4 page_zero_litres))
  = [(u "Кефір 0л", None, u "мл")].
Proof. vm_compute. split; reflexivity. Qed.

(** C1. On a page whose priced texts are "Молоко свіже 5 грн" and
    "Кефір свіжий 2000 грн" the fallback strategy emits two records,
    with price_current equal to 5 and to 2000: neither lies strictly
    between 5 and 2000. *)
Theorem regex_strategy_emits_bounds :
  map (fun p => (product_title p, price_current p))
      (fst (extract_products default [] [] 1 false no_bs4 page_price_5))
  = [(u "Молоко свіже", float_of_Z 5); (u "Кефір свіжий", float_of_Z 2000)] /\
  in_bounds (float_of_Z 5) = false /\
  in_bounds (float_of_Z 2000) = false.
Proof. vm_compute. repeat split. Qed.

End ParserFacts.

(** ** The entry point of the extractor *)

Section ExtractFacts.
Import Py Re config logging Parser.
Context {U : Unicode} (cfg : Config) (url stamp : str) (number : Z).
Context (HAS_BS4 : bool) (BeautifulSoup : str -> str + Soup).

(** C9. Markup shorter than 1000 characters (the empty string included)
    gives no record, and the trace holds no step of either strategy: the
    document is not parsed, no selector is tried, and the pattern strategy
    is not called. *)
Theorem short_markup_is_not_parsed (html : str) :
  (List.length html < 1000)%nat ->
  fst (extract_products cfg url stamp number HAS_BS4 BeautifulSoup html) = [] /\
  existsb strategy_event
    (snd (extract_products cfg url stamp number HAS_BS4 BeautifulSoup html))
  = false.
Proof.
  intros Hlen. unfold extract_products.
  apply Nat.ltb_lt in Hlen. rewrite Hlen. simpl. split; reflexivity.
Qed.

End ExtractFacts.

Section ExtractWitnesses.
Import Py Re config logging Parser.

Lemma short_markup_is_not_parsed_witness :
  (List.length (@nil char) < 1000)%nat /\
  fst (extract_products default [] [] 1 true
         (fun _ => inr (fun _ => Some [])) []) = [] /\
  existsb strategy_event
    (snd (extract_products default [] [] 1 true
            (fun _ => inr (fun _ => Some [])) [])) = false.
Proof.
  split; [simpl; lia |].
  apply short_markup_is_not_parsed. simpl; lia.
Defined.

End ExtractWitnesses.

(** ** The retry loop of the fetcher *)

Section FetchFacts.
Import Py Re config logging Scraper.
Context {U : Unicode} (cfg : Config) (get : Z -> outcome) (url : str).

Lemma failure_try_attempt (k : Z) (e : str) :
  failure get k = Some e <-> exists w, try_attempt get k = inl (e, w).
Proof.
  unfold failure. destruct (try_attempt get k) as [[e' w]|body].
  - split.
    + intros [= ->]. now exists w.
    + intros [w' [= -> _]]. reflexivity.
  - split; [discriminate | intros [w' H]; discriminate].
Qed.

(** The pauses of the loop: one after each failed attempt that is not
    attempt number [max_attempts]. *)
Lemma attempts_sleeps (max_attempts : Z) (todo : list Z) (last_error : option str) :
  sleeps (snd (attempts cfg get url max_attempts todo last_error)) =
  map (backoff cfg)
      (filter (fun k => (k <? max_attempts)%Z) (failed_prefix get todo)).
Proof.
  revert last_error. induction todo as [|k rest IH]; intros last_error.
  - reflexivity.
  - simpl. unfold fails, failure.
    destruct (try_attempt get k) as [[e w]|body].
    + specialize (IH (Some e)).
      destruct (attempts cfg get url max_attempts rest (Some e)) as [res tr].
      simpl in *. destruct (k <? max_attempts)%Z; simpl; rewrite IH; reflexivity.
    + reflexivity.
Qed.

(** Requests and pauses in order: each attempt that is made sends its
    request, and a pause follows it exactly when it failed and was not
    attempt number [max_attempts]. *)
Lemma attempts_timeline (max_attempts : Z) (todo : list Z) (last_error : option str) :
  timeline (snd (attempts cfg get url max_attempts todo last_error)) =
  flat_map (fun k => inl k ::
                     (if fails get k && (k <? max_attempts)%Z
                      then [inr (backoff cfg k)] else []))
           (made get todo).
Proof.
  revert last_error. induction todo as [|k rest IH]; intros last_error.
  - reflexivity.
  - cbn [attempts made].
    assert (Hk : fails get k =
                 match try_attempt get k with inl _ => true | inr _ => false end).
    { unfold fails, failure. now destruct (try_attempt get k) as [[e w]|body]. }
    rewrite Hk. destruct (try_attempt get k) as [[e w]|body].
    + specialize (IH (Some e)).
      destruct (attempts cfg get url max_attempts rest (Some e)) as [res tr].
      cbn [snd] in *. cbn [flat_map andb]. rewrite Hk, <- IH.
      destruct (k <? max_attempts)%Z; reflexivity.
    + cbn [flat_map]. rewrite Hk. reflexivity.
Qed.

Lemma last_cons_default {A : Type} (x d : A) (l : list A) :
  last (x :: l) d = last l x.
Proof.
  revert x d. induction l as [|y l IH]; intros x d; [reflexivity|].
  change (last (x :: y :: l) d) with (last (y :: l) d).
  now rewrite !IH.
Qed.

(** When every attempt of the list fails: nothing is returned, each
    attempt makes its request, and the one ERROR record shows the reason
    of the last failure. *)
Lemma attempts_all_fail (max_attempts : Z) (todo : list Z) (last_error : option str) :
  (forall k, In k todo -> failure get k <> None) ->
  let r := attempts cfg get url max_attempts todo last_error in
  fst r = None /\
  requests (snd r) = todo /\
  errors (snd r) =
    [[Text (u "✗ Failed after " ++ str_of_Z max_attempts ++ u " attempts: "
            ++ show_error (last (map (failure get) todo) last_error))]].
Proof.
  revert last_error. induction todo as [|k rest IH]; intros last_error Hall.
  - simpl. repeat split; reflexivity.
  - assert (Hk : failure get k <> None) by (apply Hall; now left).
    assert (Hrest : forall j, In j rest -> failure get j <> None)
      by (intros j Hj; apply Hall; now right).
    rewrite map_cons, last_cons_default.
    destruct (failure get k) as [e|] eqn:Ek; [|congruence].
    destruct (proj1 (failure_try_attempt k e) Ek) as [w Hw].
    cbn [attempts]. rewrite Hw.
    specialize (IH (Some e) Hrest). cbv zeta in IH.
    destruct (attempts cfg get url max_attempts rest (Some e)) as [res tr].
    cbn [fst snd] in *. destruct IH as (Hres & Hreq & Herr).
    repeat split.
    + exact Hres.
    + unfold requests in *. cbn [flat_map app]. rewrite flat_map_app.
      replace (flat_map _ (if (k <? max_attempts)%Z then _ else _))
        with (@nil Z) by (destruct (k <? max_attempts)%Z; reflexivity).
      cbn [app]. now rewrite Hreq.
    + unfold errors in *. cbn [flat_map app]. rewrite flat_map_app.
      replace (flat_map _ (if (k <? max_attempts)%Z then _ else _))
        with (@nil (list frag)) by (destruct (k <? max_attempts)%Z; reflexivity).
      cbn [app]. exact Herr.
Qed.

Lemma attempt_numbers_length (max_attempts : Z) :
  (0 <= max_attempts)%Z ->
  Z.of_nat (List.length (attempt_numbers max_attempts)) = max_attempts.
Proof.
  intros H. unfold attempt_numbers. rewrite length_map, length_seq. lia.
Qed.

Lemma attempt_numbers_in (max_attempts k : Z) :
  In k (attempt_numbers max_attempts) <-> (1 <= k <= max_attempts)%Z.
Proof.
  unfold attempt_numbers. rewrite in_map_iff. split.
  - intros (n & <- & Hn). apply in_seq in Hn. lia.
  - intros Hk. exists (Z.to_nat k). split; [lia|]. apply in_seq. lia.
Qed.

Lemma attempt_numbers_last {A : Type} (f : Z -> A) (d : A) (max_attempts : Z) :
  (1 <= max_attempts)%Z ->
  last (map f (attempt_numbers max_attempts)) d = f max_attempts.
Proof.
  intros H. unfold attempt_numbers.
  destruct (Z.to_nat max_attempts) as [|n] eqn:E; [lia|].
  rewrite seq_S, !map_app. simpl. rewrite last_last. f_equal. lia.
Qed.

(** C3 (as amended). When all [max_attempts] attempts fail, [fetch_page]
    makes exactly the requests 1..max_attempts and returns None; the
    reason of the last failure is not part of the returned value, it is
    written to the one ERROR record of the log.  An attempt answered with
    status 403 fails with the reason that names the blocking. *)
Theorem fetch_page_exhausted (max_attempts : Z) :
  (0 <= max_attempts)%Z ->
  (forall k, (1 <= k <= max_attempts)%Z -> failure get k <> None) ->
  let r := fetch_page cfg get url max_attempts in
  fst r = None /\
  requests (snd r) = attempt_numbers max_attempts /\
  Z.of_nat (List.length (requests (snd r))) = max_attempts /\
  ((1 <= max_attempts)%Z ->
   forall reason, failure get max_attempts = Some reason ->
     errors (snd r) =
       [[Text (u "✗ Failed after " ++ str_of_Z max_attempts
               ++ u " attempts: " ++ reason)]]) /\
  (forall k body,
     get k = Responded {| status_code := 403; text := body |} ->
     failure get k =
       Some (u "HTTP 403 - Access forbidden (site may be blocking us)")).
Proof.
  intros Hmax Hall r.
  destruct (attempts_all_fail max_attempts (attempt_numbers max_attempts) None)
    as (Hres & Hreq & Herr).
  { intros k Hk. apply Hall. now apply attempt_numbers_in. }
  fold (fetch_page cfg get url max_attempts) in Hres, Hreq, Herr.
  fold r in Hres, Hreq, Herr.
  repeat split.
  - exact Hres.
  - exact Hreq.
  - rewrite Hreq. now apply attempt_numbers_length.
  - intros H1 reason Hreason.
    rewrite Herr, (attempt_numbers_last (failure get) None max_attempts H1), Hreason.
    reflexivity.
  - intros k body Hk. unfold failure, try_attempt. rewrite Hk. reflexivity.
Qed.

End FetchFacts.

Section FetchScenarios.
Import Py Re config logging Scraper.
Context {U : Unicode} (cfg : Config) (get : Z -> outcome) (url : str).

(** C5. The requests and pauses of a call, in order: every attempt k
    that is made sends its request, and the loop sleeps [RETRY_DELAY * k]
    (linear in k) right after it exactly when attempt k failed and is not
    the last one ([k < max_attempts]); it sleeps at no other point.  For
    the answers timeout, timeout, 200 with a body of 2000 characters that
    shows it is HTML, and three attempts, the body is returned after the
    pauses [RETRY_DELAY * 1] and [RETRY_DELAY * 2]. *)
Theorem fetch_page_backoff (max_attempts : Z) :
  timeline (snd (fetch_page cfg get url max_attempts)) =
    flat_map (fun k => inl k ::
                       (if fails get k && (k <? max_attempts)%Z
                        then [inr (fmul (RETRY_DELAY cfg) (float_of_Z k))]
                        else []))
             (made get (attempt_numbers max_attempts)) /\
  (forall body,
     List.length body = 2000%nat ->
     contains (u "DOCTYPE") (slice_to 500 body)
       || contains (u "<html") (slice_to 500 body) = true ->
     let page := Responded {| status_code := 200; text := body |} in
     let r := fetch_page cfg (answers [Timeout; Timeout; page]) url 3 in
     fst r = Some body /\
     requests (snd r) = [1; 2; 3]%Z /\
     sleeps (snd r) = [fmul (RETRY_DELAY cfg) (float_of_Z 1);
                       fmul (RETRY_DELAY cfg) (float_of_Z 2)]).
Proof.
  split.
  - apply attempts_timeline.
  - intros body Hlen Hhtml page r. subst r page.
    unfold fetch_page, attempt_numbers.
    change (map Z.of_nat (List.seq 1 (Z.to_nat 3))) with [1; 2; 3]%Z.
    cbn [attempts].
    change (try_attempt (answers [Timeout; Timeout;
              Responded {| status_code := 200; text := body |}]) 1)
      with (@inl (str * str) str
              (u "Request timeout (15s exceeded)",
               u "  Timeout on attempt " ++ str_of_Z 1)).
    change (try_attempt (answers [Timeout; Timeout;
              Responded {| status_code := 200; text := body |}]) 2)
      with (@inl (str * str) str
              (u "Request timeout (15s exceeded)",
               u "  Timeout on attempt " ++ str_of_Z 2)).
    assert (H3 : try_attempt (answers [Timeout; Timeout;
                   Responded {| status_code := 200; text := body |}]) 3
                 = inr body).
    { unfold try_attempt.
      change (answers _ 3) with (Responded {| status_code := 200; text := body |}).
      unfold check_response. cbn [status_code text].
      change (200 =? 404)%Z with false. change (200 =? 403)%Z with false.
      change (200 =? 429)%Z with false. change (400 <=? 200)%Z with false.
      cbv iota. rewrite Hlen. change (2000 <? 1000)%nat with false. cbv iota.
      apply orb_true_iff in Hhtml.
      destruct (contains (u "DOCTYPE") (slice_to 500 body)),
               (contains (u "<html") (slice_to 500 body));
        try reflexivity.
      destruct Hhtml; discriminate. }
    rewrite H3. cbn. repeat split; reflexivity.
Qed.

End FetchScenarios.

Section FetchWitnesses.
Import Py Re config logging Scraper Scenarios.

(** With the values of the repository the two pauses are 2.0 and 4.0. *)
Lemma fetch_page_backoff_witness :
  let page := Responded {| status_code := 200; text := html_page |} in
  let r := fetch_page default (answers [Timeout; Timeout; page])
             (BASE_URL default) 3 in
  fst r = Some html_page /\
  requests (snd r) = [1; 2; 3]%Z /\
  sleeps (snd r) = [dec 20 1; dec 40 1].
Proof.
  apply (proj2 (fetch_page_backoff default (fun _ => Timeout)
                  (BASE_URL default) 3) html_page);
    vm_compute; reflexivity.
Defined.

Lemma fetch_page_exhausted_witness :
  let r := fetch_page default blocked (BASE_URL default) 3 in
  fst r = None /\
  requests (snd r) = [1; 2; 3]%Z /\
  errors (snd r) =
    [[Text (u "✗ Failed after " ++ str_of_Z 3 ++ u " attempts: "
            ++ u "HTTP 403 - Access forbidden (site may be blocking us)")]].
Proof.
  destruct (fetch_page_exhausted default blocked (BASE_URL default) 3)
    as (H1 & H2 & _ & H4 & H5).
  - lia.
  - intros k _. unfold failure, try_attempt, blocked, check_response.
    cbn [status_code]. change (403 =? 404)%Z with false.
    change (403 =? 403)%Z with true. cbv iota. discriminate.
  - cbv zeta. split; [exact H1|]. split; [exact H2|].
    apply H4; [lia|]. apply (H5 3%Z []). reflexivity.
Defined.

(** C3 (as stated). Three answers 403 and three answers 404 both make
    [fetch_page] return None, although the attempts failed for different
    reasons: the returned value does not carry the reason. *)
Lemma failure_value_holds_no_reason :
  fst (fetch_page default blocked (BASE_URL default) 3) = None /\
  fst (fetch_page default missing (BASE_URL default) 3) = None /\
  failure blocked 3 =
    Some (u "HTTP 403 - Access forbidden (site may be blocking us)") /\
  failure missing 3 = Some (u "HTTP 404 - Page not found").
Proof. vm_compute. repeat split. Qed.

End FetchWitnesses.

(** ** Pagination discovery *)

Section PaginationFacts.
Import Py Re config logging Scraper Main.
Context {U : Unicode} (cfg : Config).

(** Case analysis on a comparison of the goal. *)
Ltac split_leb :=
  match goal with
  | |- context [(?a <=? ?b)%Z] => destruct (a <=? b)%Z eqn:?
  end.

Ltac done_page :=
  let E := fresh "E" in
  intros E; inversion E; subst; clear E;
  repeat match goal with
  | H : (_ <=? _)%Z = true |- _ => apply Z.leb_le in H
  | H : (_ <=? _)%Z = false |- _ => clear H
  end; lia.

(** Whatever was fetched (nothing, an empty string, markup with or
    without page links) and whether or not a conversion raises, the page
    count stays within the configured maximum. *)
Lemma last_page_of_bounded (html : option str) :
  (1 <= MAX_PAGES cfg)%Z ->
  (fst (last_page_of cfg html) <= MAX_PAGES cfg)%Z.
Proof.
  intros Hmax. unfold last_page_of.
  destruct html as [[|c html]|]; cbn [fst]; try lia.
  destruct (detect cfg (c :: html)) as [[n tr]|] eqn:E; cbn [fst]; [|lia].
  revert E. unfold detect, Parser.bind.
  destruct (findall1 page_param (c :: html)) as [|p ps].
  - destruct (findall2 page_link (c :: html)) as [|l ls].
    + destruct (contains (u "page=") (c :: html)); done_page.
    + destruct (ints (map fst (l :: ls))) as [nums|]; [|discriminate].
      split_leb; [done_page|].
      destruct (contains (u "page=") (c :: html)); done_page.
  - destruct (ints (p :: ps)) as [ns|]; [|discriminate].
    split_leb; [done_page|].
    destruct (findall2 page_link (c :: html)) as [|l ls].
    + destruct (contains (u "page=") (c :: html)); done_page.
    + destruct (ints (map fst (l :: ls))) as [nums|]; [|discriminate].
      split_leb; [done_page|].
      destruct (contains (u "page=") (c :: html)); done_page.
Qed.

Lemma generate_page_urls_length (max_page : Z) :
  Z.of_nat (List.length (generate_page_urls cfg max_page)) = Z.max 0 max_page.
Proof.
  unfold generate_page_urls. rewrite !length_map, length_seq. lia.
Qed.

(** C10. With a configured maximum of at least one page,
    [find_last_page] returns at most that maximum for every behaviour of
    the network, hence for every fetched markup, a failed fetch and a
    conversion that raises included; the list of page URLs generated from
    its result is no longer than the maximum. *)
Theorem find_last_page_bounded (session_get : Z -> outcome) :
  (1 <= MAX_PAGES cfg)%Z ->
  (forall fetched : option str,
     (fst (last_page_of cfg fetched) <= MAX_PAGES cfg)%Z) /\
  (fst (find_last_page cfg session_get) <= MAX_PAGES cfg)%Z /\
  (Z.of_nat (List.length
      (generate_page_urls cfg (fst (find_last_page cfg session_get))))
   <= MAX_PAGES cfg)%Z.
Proof.
  intros Hmax.
  assert (H : (fst (find_last_page cfg session_get) <= MAX_PAGES cfg)%Z).
  { unfold find_last_page.
    destruct (fetch_page cfg session_get (BASE_URL cfg) (RETRY_ATTEMPTS cfg))
      as [html tr].
    pose proof (last_page_of_bounded html Hmax) as Hb.
    destruct (last_page_of cfg html) as [n tr2]. exact Hb. }
  split; [intros fetched; now apply last_page_of_bounded|].
  split; [exact H|]. rewrite generate_page_urls_length. lia.
Qed.

End PaginationFacts.

Section PaginationWitnesses.
Import Py Re config logging Scraper Main Scenarios.

Lemma find_last_page_bounded_witness :
  (1 <= MAX_PAGES default)%Z /\
  (forall fetched : option str,
     (fst (last_page_of default fetched) <= MAX_PAGES default)%Z) /\
  (fst (find_last_page default blocked) <= MAX_PAGES default)%Z /\
  (Z.of_nat (List.length
      (generate_page_urls default (fst (find_last_page default blocked))))
   <= MAX_PAGES default)%Z.
Proof.
  split; [vm_compute; discriminate|].
  apply find_last_page_bounded. vm_compute. discriminate.
Defined.

End PaginationWitnesses.

(** ** The structured strategy *)

Section StructuredFacts.
Import Py Re config logging Parser.
Context {U : Unicode} (cfg : Config) (url stamp : str) (number : Z).
Context (soup : Soup).






End StructuredFacts.

(** ** The unit price of a record *)

Section UnitPriceFacts.
Import Py Re config logging Parser.
Context {U : Unicode} (cfg : Config) (url stamp : str) (number : Z).



(** A quantity comes with the unit of its pattern. *)
Lemma first_pack_unit (patterns : list (regex * str * Z)) (title : str)
    (pack : Pack) :
  Forall (fun p => snd (fst p) <> []) patterns ->
  first_pack patterns title = Some pack ->
  qty pack <> None -> unit_ pack <> [].
Proof.
  induction 1 as [|[[regex unit] multiply] rest Hunit _ IH]; cbn [first_pack].
  - intros [= <-]. cbn. congruence.
  - destruct (search true regex title) as [m|]; [|exact IH].
    unfold bind.
    destruct (float_mul_int (_to_num (group 1 m)) multiply) as [x|];
      [|discriminate].
    destruct (round x) as [n|]; [|discriminate].
    intros [= <-] _. exact Hunit.
Qed.

Lemma extract_pack_unit (title : str) (pack : Pack) :
  _extract_pack title = Some pack -> qty pack <> None -> unit_ pack <> [].
Proof.
  apply first_pack_unit. unfold pack_patterns.
  repeat constructor; discriminate.
Qed.


(** A property of every parsed element holds of every record of the
    structured strategy. *)
Section StructuredRecords.
Variable P : Product -> Prop.
Hypothesis parsed :
  forall e p, _parse_element cfg url stamp number e = Some p -> P p.

Lemma parse_elements_Forall (selector : str) (elements : list Element)
    (products : list Product) :
  Forall P products ->
  Forall P
    (fst (parse_elements cfg url stamp number selector elements products)).
Proof.
  revert products. induction elements as [|e rest IH]; intros products Hall.
  - exact Hall.
  - cbn [parse_elements].
    destruct (_parse_element cfg url stamp number e) as [p|] eqn:Hp.
    + specialize (IH (products ++ [p])).
      destruct (parse_elements cfg url stamp number selector rest _) as [out tr].
      apply IH. apply Forall_app. split; [exact Hall|].
      constructor; [|constructor]. now apply parsed with e.
    + specialize (IH products Hall).
      destruct (parse_elements cfg url stamp number selector rest _) as [out tr].
      exact IH.
Qed.

Lemma try_selectors_Forall (soup : Soup) (sels : list str)
    (products : list Product) :
  Forall P products ->
  Forall P (fst (try_selectors cfg url stamp number soup sels products)).
Proof.
  revert products. induction sels as [|selector rest IH]; intros products Hall.
  - exact Hall.
  - cbn [try_selectors].
    destruct (soup selector) as [elements|].
    + destruct (3 <? List.length elements)%nat.
      * pose proof (parse_elements_Forall selector elements products Hall) as Hp.
        destruct (parse_elements cfg url stamp number selector elements products)
          as [products' tr1].
        cbn [fst] in Hp. destruct products' as [|p ps].
        -- specialize (IH [] Hp).
           destruct (try_selectors cfg url stamp number soup rest []) as [out tr].
           exact IH.
        -- exact Hp.
      * specialize (IH products Hall).
        destruct (try_selectors cfg url stamp number soup rest products)
          as [out tr]. exact IH.
    + specialize (IH products Hall).
      destruct (try_selectors cfg url stamp number soup rest products)
        as [out tr]. exact IH.
Qed.

End StructuredRecords.

(** The structured strategy keeps a price only strictly between 5 and
    2000. *)
Lemma extract_prices_in_bounds (text : str) (info : PriceInfo) :
  _extract_prices text = Some info -> in_bounds (current info) = true.
Proof.
  unfold _extract_prices.
  destruct (filter in_bounds _) as [|price rest] eqn:E; [discriminate|].
  assert (Hin : In price (price :: rest)) by now left.
  rewrite <- E in Hin. apply filter_In in Hin. destruct Hin as [_ Hb].
  destruct (search false discount_regex text) as [m|];
    [destruct rest|]; intros [= <-]; exact Hb.
Qed.

Lemma structured_prices_in_bounds (soup : Soup) :
  Forall (fun p => in_bounds (price_current p) = true)
    (fst (_extract_with_beautifulsoup cfg url stamp number soup)).
Proof.
  apply try_selectors_Forall; [|constructor].
  intros e p. unfold _parse_element.
  destruct (_extract_title (get_text e)) as [title|]; [|discriminate].
  destruct (List.length title <? 5)%nat; [discriminate|].
  destruct (_extract_prices _) as [price_info|] eqn:Hprices; [|discriminate].
  destruct (negb (float_truthy (current price_info))); [discriminate|].
  unfold bind. destruct (_extract_pack title) as [pack|]; [|discriminate].
  intros [= <-]. cbn [price_current].
  now apply extract_prices_in_bounds with (text := get_text e ++ u " " ++
    match parent e with Some t => t | None => [] end).
Qed.

(** The pattern strategy keeps a price unless it is below 5 or above
    2000: the two bounds themselves pass. *)
Lemma regex_step_bounds (st : list str * list Product) (m : rmatch) :
  Forall (fun p => flt (price_current p) (float_of_Z 5) = false /\
                   flt (float_of_Z 2000) (price_current p) = false) (snd st) ->
  Forall (fun p => flt (price_current p) (float_of_Z 5) = false /\
                   flt (float_of_Z 2000) (price_current p) = false)
    (snd (regex_step cfg url stamp number st m)).
Proof.
  destruct st as [seen products]. cbn [snd]. intros Hall.
  unfold regex_step.
  destruct (_clean_text (group 1 m)) as [|c title'] eqn:Htitle; [exact Hall|].
  destruct (_ || _); [exact Hall|].
  destruct (mem _ seen); [exact Hall|].
  destruct (flt (_to_num (group 2 m)) (float_of_Z 5)) eqn:H5;
    [exact Hall|].
  destruct (flt (float_of_Z 2000) (_to_num (group 2 m))) eqn:H2000;
    [exact Hall|].
  cbn [orb].
  destruct (_extract_pack (c :: title')) as [pack|] eqn:Hpack; [|exact Hall].
  cbn [snd]. apply Forall_app. split; [exact Hall|].
  constructor; [|constructor]. cbn [price_current]. auto.
Qed.

Lemma extract_with_regex_bounds (html : str) :
  Forall (fun p => flt (price_current p) (float_of_Z 5) = false /\
                   flt (float_of_Z 2000) (price_current p) = false)
    (_extract_with_regex cfg url stamp number html).
Proof.
  unfold _extract_with_regex.
  generalize (finditer false price_pattern html) as matches.
  assert (H : Forall (fun p => flt (price_current p) (float_of_Z 5) = false /\
                        flt (float_of_Z 2000) (price_current p) = false)
                (snd (@nil str, @nil Product))) by constructor.
  revert H. generalize (@nil str, @nil Product) as st.
  intros st H matches. revert st H.
  induction matches as [|m rest IH]; intros st H; [exact H|].
  cbn [fold_left]. apply IH. now apply regex_step_bounds.
Qed.



Context (HAS_BS4 : bool) (BeautifulSoup : str -> str + Soup).



End UnitPriceFacts.

Section UnitPriceWitness.
Import Py Re config logging Parser Scenarios.


End UnitPriceWitness.

(** ** The matcher on [\s+] and on a subject without a match *)

Section MatcherFacts.
Import Py Re config logging Parser.
Context {U : Unicode}.

Lemma atom_ok_spc (c : char) : atom_ok false spc c = isspace c.
Proof. unfold atom_ok, spc, cls. cbn. destruct (isspace c); reflexivity. Qed.

(** A greedy, unbounded repetition with nothing more required succeeds
    when the continuation does. *)
Lemma rep_star_total (ic : bool) (a : atom) (rest : str) :
  forall (pos : nat) (prev : option char)
         (k : nat -> option char -> str -> option mstate),
  (forall p pr rs, k p pr rs <> None) ->
  rep ic true a 0 None pos prev rest k <> None.
Proof.
  induction rest as [|c rest IH]; intros pos prev k Hk.
  - cbn. apply Hk.
  - cbn [rep hi_allows hi_pred option_map pred andb].
    destruct (atom_ok ic a c).
    + specialize (IH (S pos) (Some c) k Hk).
      destruct (rep ic true a 0 None (S pos) (Some c) rest k);
        [discriminate|contradiction].
    + cbn. apply Hk.
Qed.

Lemma or_else_some {A : Type} (o1 o2 : option A) (x : A) :
  match o1 with Some r => Some r | None => o2 end = Some x ->
  o1 = Some x \/ o2 = Some x.
Proof. destruct o1; auto. Qed.

(** A repetition ends at least [lo] characters further. *)
Lemma rep_progress (ic greedy : bool) (a : atom) (rest : str) :
  forall (lo : nat) (hi : option nat) (pos : nat) (prev : option char)
         (k : nat -> option char -> str -> option mstate) (st : mstate),
  (forall p pr rs st', k p pr rs = Some st' -> (p <= m_pos st')%nat) ->
  rep ic greedy a lo hi pos prev rest k = Some st ->
  (pos + lo <= m_pos st)%nat.
Proof.
  induction rest as [|c rest IH]; intros lo hi pos prev k st Hk.
  - assert (Hstop :
      (if (lo =? 0)%nat then k pos prev [] else None) = Some st ->
      (pos + lo <= m_pos st)%nat).
    { destruct (lo =? 0)%nat eqn:Hlo; [|discriminate].
      intros H. apply Hk in H. apply Nat.eqb_eq in Hlo. lia. }
    destruct greedy; cbn [rep]; intros H.
    + now apply Hstop.
    + apply or_else_some in H. destruct H as [H|H]; [now apply Hstop|discriminate].
  - assert (Hmore :
      (if hi_allows hi && atom_ok ic a c
       then rep ic greedy a (pred lo) (hi_pred hi) (S pos) (Some c) rest k
       else None) = Some st -> (pos + lo <= m_pos st)%nat).
    { destruct (hi_allows hi && atom_ok ic a c); [|discriminate].
      intros H. apply IH in H; [lia|exact Hk]. }
    assert (Hstop :
      (if (lo =? 0)%nat then k pos prev (c :: rest) else None) = Some st ->
      (pos + lo <= m_pos st)%nat).
    { destruct (lo =? 0)%nat eqn:Hlo; [|discriminate].
      intros H. apply Hk in H. apply Nat.eqb_eq in Hlo. lia. }
    destruct greedy; cbn [rep]; intros H; apply or_else_some in H;
      destruct H as [H|H]; auto.
Qed.

Lemma spaces_match_nonempty (pos : nat) (prev : option char) (rest : str)
    (m : rmatch) :
  match_at false spaces pos prev rest = Some m -> (pos < m_end m)%nat.
Proof.
  unfold match_at, spaces, plus. cbn [mt m_pos m_prev m_rest m_caps].
  destruct (rep _ _ _ _ _ _ _ _ _) as [st|] eqn:E; [|discriminate].
  intros [= <-]. cbn [m_end].
  apply rep_progress in E; [lia|].
  intros p pr rs st' [= <-]. cbn. lia.
Qed.

(** Where [\s+] does not match, the character is not white space. *)
Lemma spaces_no_match (pos : nat) (prev : option char) (c : char) (rest : str) :
  match_at false spaces pos prev (c :: rest) = None -> isspace c = false.
Proof.
  unfold match_at, spaces, plus. cbn [mt m_pos m_prev m_rest m_caps].
  cbn [rep hi_allows hi_pred option_map pred andb Nat.eqb].
  rewrite atom_ok_spc. destruct (isspace c); [|reflexivity].
  pose proof (rep_star_total false spc rest (S pos) (Some c)
                (fun p pr rs => Some (MState p pr rs []))) as H.
  destruct (rep false true spc 0 None (S pos) (Some c) rest _) as [st|].
  - discriminate.
  - exfalso. apply H; [discriminate|reflexivity].
Qed.

Lemma spaces_fail (pos : nat) (prev : option char) (rest : str) :
  match rest with [] => True | c :: _ => isspace c = false end ->
  match_at false spaces pos prev rest = None.
Proof.
  unfold match_at, spaces, plus. cbn [mt m_pos m_prev m_rest m_caps].
  destruct rest as [|c rest]; [reflexivity|].
  intros Hc. cbn [rep hi_allows hi_pred option_map pred andb Nat.eqb].
  rewrite atom_ok_spc, Hc. reflexivity.
Qed.

(** One white space character that no other follows is matched alone. *)
Lemma spaces_match_one (pos : nat) (prev : option char) (c : char) (rest : str) :
  isspace c = true ->
  match rest with [] => True | d :: _ => isspace d = false end ->
  match_at false spaces pos prev (c :: rest) = Some (RMatch pos (S pos) []).
Proof.
  intros Hc Hrest.
  unfold match_at, spaces, plus. cbn [mt m_pos m_prev m_rest m_caps].
  cbn [rep hi_allows hi_pred option_map pred andb Nat.eqb].
  rewrite atom_ok_spc, Hc.
  destruct rest as [|d rest].
  - reflexivity.
  - cbn [rep hi_allows hi_pred option_map pred andb Nat.eqb].
    rewrite atom_ok_spc, Hrest. reflexivity.
Qed.

(** [re.sub] leaves a subject without a match as it is. *)
Lemma sub_without_match (ic : bool) (r : regex) (repl : str) (rest : str) :
  forall (pos : nat) (prev : option char),
  search_from ic r pos prev rest = None ->
  sub_from ic r repl 0 pos prev rest = rest.
Proof.
  induction rest as [|c rest IH]; intros pos prev; cbn [search_from sub_from];
    destruct (match_at ic r pos prev _); try discriminate.
  - reflexivity.
  - intros H. now rewrite IH.
Qed.

(** [re.sub] keeps a property that holds of every character of the
    subject and of the replacement. *)
Lemma sub_Forall (P : char -> Prop) (ic : bool) (r : regex) (repl rest : str) :
  forall (skip pos : nat) (prev : option char),
  Forall P repl -> Forall P rest ->
  Forall P (sub_from ic r repl skip pos prev rest).
Proof.
  induction rest as [|c rest IH]; intros skip pos prev Hrepl Hall.
  - destruct skip; cbn [sub_from]; [|constructor].
    destruct (match_at ic r pos prev []); [|constructor].
    now rewrite app_nil_r.
  - inversion Hall as [|? ? Hc Hrest]; subst.
    destruct skip; cbn [sub_from]; [|now apply IH].
    destruct (match_at ic r pos prev (c :: rest)) as [m|].
    + apply Forall_app. split; [exact Hrepl|].
      apply Forall_app. split; [|now apply IH].
      destruct (m_end m =? pos)%nat; [now constructor|constructor].
    + constructor; [exact Hc|now apply IH].
Qed.

(** After [re.sub(r'\s+', ' ', ...)] every white space character is a
    plain space. *)
Lemma sub_spaces_plain (rest : str) :
  forall (skip pos : nat) (prev : option char),
  plain_spaces (sub_from false spaces (u " ") skip pos prev rest).
Proof.
  unfold plain_spaces.
  induction rest as [|c rest IH]; intros skip pos prev.
  - destruct skip; cbn [sub_from]; [|constructor].
    destruct (match_at false spaces pos prev []); [|constructor].
    constructor; [reflexivity|constructor].
  - destruct skip; cbn [sub_from]; [|apply IH].
    destruct (match_at false spaces pos prev (c :: rest)) as [m|] eqn:E.
    + apply spaces_match_nonempty in E.
      replace (m_end m =? pos)%nat with false
        by (symmetry; apply Nat.eqb_neq; lia).
      constructor; [reflexivity|apply IH].
    + apply spaces_no_match in E.
      constructor; [rewrite E; discriminate|apply IH].
Qed.

(** On a subject whose white space is single plain spaces,
    [re.sub(r'\s+', ' ', ...)] changes nothing. *)
Lemma sub_spaces_identity (rest : str) :
  forall (pos : nat) (prev : option char),
  plain_spaces rest -> contains (u "  ") rest = false ->
  sub_from false spaces (u " ") 0 pos prev rest = rest.
Proof.
  unfold plain_spaces.
  induction rest as [|c rest IH]; intros pos prev Hplain Hdouble.
  - reflexivity.
  - inversion Hplain as [|? ? Hc Hrest]; subst.
    cbn [contains] in Hdouble. apply orb_false_iff in Hdouble.
    destruct Hdouble as [Hhere Hlater].
    cbn [sub_from]. destruct (isspace c) eqn:Hsp.
    + assert (Hnext : match rest with
                      | [] => True
                      | d :: _ => isspace d = false
                      end).
      { destruct rest as [|d rest']; [exact I|].
        destruct (isspace d) eqn:Hd; [|reflexivity].
        inversion Hrest as [|? ? Hd' _]; subst.
        rewrite (Hc eq_refl), (Hd' Hd) in Hhere. discriminate. }
      rewrite (spaces_match_one pos prev c rest Hsp Hnext). cbn [m_end].
      replace (S pos =? pos)%nat with false
        by (symmetry; apply Nat.eqb_neq; lia).
      replace (S pos - pos - 1)%nat with 0%nat by lia.
      rewrite (Hc eq_refl). cbn [app].
      change (u " " ++ ?x) with (ch " " :: x).
      f_equal. now apply IH.
    + rewrite (spaces_fail pos prev (c :: rest) Hsp). f_equal. now apply IH.
Qed.

End MatcherFacts.

(** ** The title normalizer *)

Section TitleFacts.
Import Py Re config logging Parser.
Context {U : Unicode}.

Lemma replace_absent (old new : char) (s : str) :
  Forall (fun c => c <> old) s -> replace old new s = s.
Proof.
  unfold replace. induction 1 as [|c s Hc _ IH]; [reflexivity|].
  cbn [map]. rewrite IH. apply N.eqb_neq in Hc. now rewrite Hc.
Qed.

Lemma replace_removes (old new : char) (s : str) :
  new <> old -> Forall (fun c => c <> old) (replace old new s).
Proof.
  intros Hnew. unfold replace. induction s as [|c s IH]; cbn [map];
    constructor; try exact IH.
  destruct (c =? old)%N eqn:E; [exact Hnew|now apply N.eqb_neq].
Qed.

Lemma replace_keeps (x old new : char) (s : str) :
  new <> x -> Forall (fun c => c <> x) s ->
  Forall (fun c => c <> x) (replace old new s).
Proof.
  intros Hnew. unfold replace. induction 1 as [|c s Hc _ IH]; cbn [map];
    constructor; try exact IH.
  destruct (c =? old)%N; assumption.
Qed.

Lemma lstrip_Forall (P : char -> Prop) (s : str) :
  Forall P s -> Forall P (lstrip s).
Proof.
  induction 1 as [|c s Hc Hs IH]; cbn [lstrip]; [constructor|].
  destruct (isspace c); [exact IH|now constructor].
Qed.

Lemma strip_Forall (P : char -> Prop) (s : str) :
  Forall P s -> Forall P (strip s).
Proof.
  intros H. unfold strip, rstrip.
  apply Forall_rev, lstrip_Forall, Forall_rev, lstrip_Forall, H.
Qed.

Lemma firstn_Forall (P : char -> Prop) (n : nat) (s : str) :
  Forall P s -> Forall P (firstn n s).
Proof.
  intros H. revert n. induction H as [|c s Hc Hs IH]; intros [|n];
    cbn [firstn]; constructor; auto.
Qed.

Lemma lstrip_length (s : str) : (List.length (lstrip s) <= List.length s)%nat.
Proof.
  induction s as [|c s IH]; cbn [lstrip]; [lia|].
  destruct (isspace c); cbn [List.length]; lia.
Qed.

Lemma strip_length (s : str) : (List.length (strip s) <= List.length s)%nat.
Proof.
  unfold strip, rstrip. rewrite length_rev.
  etransitivity; [apply lstrip_length|]. rewrite length_rev.
  apply lstrip_length.
Qed.

Lemma lstrip_idempotent (s : str) : lstrip (lstrip s) = lstrip s.
Proof.
  induction s as [|c s IH]; [reflexivity|]. cbn [lstrip].
  destruct (isspace c) eqn:E; [exact IH|]. cbn [lstrip]. now rewrite E.
Qed.

(** Behind a character that is not white space nothing is stripped from
    the left. *)
Lemma lstrip_app_last (s : str) (c : char) :
  isspace c = false -> exists s', lstrip (s ++ [c]) = s' ++ [c].
Proof.
  intros Hc. induction s as [|d s IH]; cbn [app lstrip].
  - rewrite Hc. now exists [].
  - destruct (isspace d); [exact IH|]. now exists (d :: s).
Qed.

(** Stripping the right end keeps a left end that is already clean. *)
Lemma rstrip_keeps_left (s : str) :
  lstrip s = s -> lstrip (rstrip s) = rstrip s.
Proof.
  destruct s as [|c s]; [reflexivity|].
  cbn [lstrip]. destruct (isspace c) eqn:Hc.
  - intros H. exfalso.
    pose proof (lstrip_length s) as Hlen. rewrite H in Hlen.
    cbn [List.length] in Hlen. lia.
  - intros _. unfold rstrip. cbn [rev].
    destruct (lstrip_app_last (rev s) c Hc) as [s' Hs']. rewrite Hs'.
    rewrite rev_app_distr. cbn [rev app lstrip]. now rewrite Hc.
Qed.

Lemma strip_stripped (s : str) : stripped (strip s).
Proof.
  unfold stripped, strip. split.
  - apply rstrip_keeps_left, lstrip_idempotent.
  - unfold rstrip. rewrite rev_involutive. apply lstrip_idempotent.
Qed.

Lemma strip_of_stripped (s : str) : stripped s -> strip s = s.
Proof.
  intros [Hl Hr]. unfold strip, rstrip. rewrite Hl, Hr. apply rev_involutive.
Qed.

(** What every title that [_extract_title] returns looks like. *)
Lemma extract_title_shape (text t : str) :
  _extract_title text = Some t ->
  no_controls t /\ plain_spaces t /\ stripped t /\
  (3 <= List.length t <= 200)%nat.
Proof.
  unfold _extract_title.
  set (cleaned := strip (sub false spaces (u " ") _)).
  set (without_price := strip (sub false title_price [] cleaned)).
  set (title := strip (slice_to 200 without_price)).
  assert (Hcontrols : no_controls title).
  { unfold no_controls, title, without_price, cleaned, slice_to, sub.
    apply strip_Forall, firstn_Forall, strip_Forall, sub_Forall;
      [constructor|].
    apply strip_Forall, sub_Forall.
    { change (u " ") with [ch " "].
      constructor; [repeat split; discriminate|constructor]. }
    assert (H : forall x, ch " " <> x -> x = TAB \/ x = CR \/ x = LF ->
              Forall (fun c => c <> x)
                (replace TAB (ch " ") (replace CR (ch " ")
                   (replace LF (ch " ") text)))).
    { intros x Hx [-> | [-> | ->]].
      - now apply replace_removes.
      - apply replace_keeps; [exact Hx|]. now apply replace_removes.
      - apply replace_keeps; [exact Hx|]. apply replace_keeps; [exact Hx|].
        now apply replace_removes. }
    pose proof (H TAB ltac:(discriminate) ltac:(auto)) as H1.
    pose proof (H CR ltac:(discriminate) ltac:(auto)) as H2.
    pose proof (H LF ltac:(discriminate) ltac:(auto)) as H3.
    rewrite Forall_forall in *. intros c Hin. auto. }
  assert (Hplain : plain_spaces title).
  { unfold plain_spaces, title, without_price, cleaned, slice_to, sub.
    apply strip_Forall, firstn_Forall, strip_Forall, sub_Forall;
      [constructor|].
    apply strip_Forall. apply sub_spaces_plain. }
  assert (Hlen : (List.length title <= 200)%nat).
  { unfold title, slice_to. etransitivity; [apply strip_length|].
    apply firstn_le_length. }
  assert (Hstripped : stripped title) by apply strip_stripped.
  destruct title as [|c title'] eqn:E; [discriminate|].
  destruct (List.length (c :: title') <? 3)%nat eqn:H3; [discriminate|].
  intros [= <-]. apply Nat.ltb_ge in H3. auto.
Qed.

(** C7 (as amended). A title that the normalizer returned, that holds
    no currency amount with its marker and no two consecutive spaces, is
    returned unchanged when it is normalized again. *)
Theorem extract_title_idempotent (text t : str) :
  _extract_title text = Some t ->
  search false title_price t = None ->
  contains (u "  ") t = false ->
  _extract_title t = Some t.
Proof.
  intros Hout Hprice Hdouble.
  destruct (extract_title_shape text t Hout)
    as (Hcontrols & Hplain & Hstripped & Hlen3 & Hlen200).
  unfold no_controls in Hcontrols.
  unfold _extract_title.
  rewrite (replace_absent LF), (replace_absent CR), (replace_absent TAB);
    try (eapply Forall_impl; [|exact Hcontrols]; cbv beta; tauto).
  unfold sub. rewrite (sub_spaces_identity t 0 None Hplain Hdouble).
  rewrite (strip_of_stripped t Hstripped).
  rewrite (sub_without_match false title_price [] t 0 None Hprice).
  rewrite (strip_of_stripped t Hstripped).
  unfold slice_to. rewrite (firstn_all2 t Hlen200).
  rewrite (strip_of_stripped t Hstripped).
  destruct t as [|c t']; [cbn in Hlen3; lia|].
  replace (List.length (c :: t') <? 3)%nat with false
    by (symmetry; apply Nat.ltb_ge; exact Hlen3).
  reflexivity.
Qed.

End TitleFacts.

Section TitleWitnesses.
Import Py Re config logging Parser Scenarios.

Lemma extract_title_idempotent_witness :
  _extract_title milk = Some (u "Молоко Яготинське 2.5% 1л") /\
  _extract_title (u "Молоко Яготинське 2.5% 1л")
    = Some (u "Молоко Яготинське 2.5% 1л").
Proof.
  split; [vm_compute; reflexivity|].
  apply (extract_title_idempotent milk); vm_compute; reflexivity.
Defined.

(** C7 (as stated). The title of "Молоко 45 грн Яготинське" keeps the
    two spaces that surrounded the price; it holds no currency amount, and
    normalizing it again gives a different title, with one space. *)
Lemma extract_title_not_idempotent :
  let t := u "Молоко  Яготинське" in
  _extract_title (u "Молоко 45 грн Яготинське") = Some t /\
  search false title_price t = None /\
  _extract_title t = Some (u "Молоко Яготинське") /\
  _extract_title t <> Some t.
Proof. vm_compute. repeat split. discriminate. Qed.

End TitleWitnesses.

(** ** Invariants of the emitted records *)

Section RecordInvariant.
Import Py Re config logging Parser.
Context {U : Unicode} (cfg : Config) (url stamp : str) (number : Z).

(** A property of every parsed element and of every record that a step
    of the pattern strategy appends holds of every emitted record. *)
Variable P : Product -> Prop.
Hypothesis parsed :
  forall e p, _parse_element cfg url stamp number e = Some p -> P p.
Hypothesis mined :
  forall st m, Forall P (snd st) ->
    Forall P (snd (regex_step cfg url stamp number st m)).

Lemma extract_with_regex_Forall (html : str) :
  Forall P (_extract_with_regex cfg url stamp number html).
Proof.
  unfold _extract_with_regex.
  generalize (finditer false price_pattern html) as matches.
  assert (H : Forall P (snd (@nil str, @nil Product))) by constructor.
  revert H. generalize (@nil str, @nil Product) as st.
  intros st H matches. revert st H.
  induction matches as [|m rest IH]; intros st H; [exact H|].
  cbn [fold_left]. apply IH. now apply mined.
Qed.

Lemma extract_products_Forall (HAS_BS4 : bool)
    (BeautifulSoup : str -> str + Soup) (html : str) :
  Forall P
    (fst (extract_products cfg url stamp number HAS_BS4 BeautifulSoup html)).
Proof.
  assert (Hregex : Forall P (fst (regex_strategy cfg url stamp number html))).
  { unfold regex_strategy.
    pose proof (extract_with_regex_Forall html) as H.
    destruct (_extract_with_regex cfg url stamp number html);
      [constructor|exact H]. }
  unfold extract_products.
  destruct (List.length html <? 1000)%nat; [constructor|].
  destruct HAS_BS4; [|exact Hregex].
  destruct (BeautifulSoup html) as [e|soup].
  - destruct (regex_strategy cfg url stamp number html) as [out tr2].
    exact Hregex.
  - unfold _extract_with_beautifulsoup.
    pose proof (try_selectors_Forall cfg url stamp number P parsed
                  soup selectors [] (Forall_nil _)) as Hs.
    destruct (try_selectors cfg url stamp number soup selectors [])
      as [products tr].
    cbn [fst] in Hs. destruct products as [|p ps].
    + destruct (regex_strategy cfg url stamp number html) as [out tr2].
      exact Hregex.
    + exact Hs.
Qed.

End RecordInvariant.

Section RecordShape.
Import Py Re config logging Parser.
Context {U : Unicode} (cfg : Config) (url stamp : str) (number : Z).

(** What [_parse_element] returns, when it returns a record. *)
Lemma parse_element_inv (e : Element) (p : Product) :
  _parse_element cfg url stamp number e = Some p ->
  exists title info pack,
    _extract_title (get_text e) = Some title /\
    (5 <= List.length title)%nat /\
    _extract_prices (get_text e ++ u " " ++
                     match parent e with Some t => t | None => [] end)
      = Some info /\
    _extract_pack title = Some pack /\
    p = {| upload_ts := stamp; page_url := url; page_number := number;
           source := site; product_title := title;
           brand := _extract_brand cfg title;
           product_type := _extract_product_type cfg title;
           fat_pct := _extract_fat title;
           pack_qty := qty pack; pack_unit := unit_ pack;
           price_current := current info; price_old := old info;
           discount_pct := discount info;
           price_per_l_or_kg_or_piece :=
             _calculate_price_per_unit (current info) pack;
           rating := _extract_rating
                       (get_text e ++ u " " ++
                        match parent e with Some t => t | None => [] end);
           price_type := type_ info |}.
Proof.
  unfold _parse_element.
  destruct (_extract_title (get_text e)) as [title|]; [|discriminate].
  destruct (List.length title <? 5)%nat eqn:Hlen; [discriminate|].
  destruct (_extract_prices _) as [info|] eqn:Hprices; [|discriminate].
  destruct (negb (float_truthy (current info))); [discriminate|].
  unfold bind. destruct (_extract_pack title) as [pack|] eqn:Hpack;
    [|discriminate].
  intros [= <-]. exists title, info, pack.
  apply Nat.ltb_ge in Hlen. repeat split; auto.
Qed.

(** What a step of the pattern strategy does: it leaves the records as
    they are, or appends one record built from the cleaned title. *)
Lemma regex_step_inv (seen : list str) (products : list Product) (m : rmatch) :
  let title := _clean_text (group 1 m) in
  let price := _to_num (group 2 m) in
  let st' := regex_step cfg url stamp number (seen, products) m in
  (snd st' = products /\ (fst st' = seen \/ fst st' = title :: seen)) \/
  (exists pack,
     (5 <= List.length title <= 200)%nat /\
     mem title seen = false /\
     flt price (float_of_Z 5) = false /\
     flt (float_of_Z 2000) price = false /\
     _extract_pack title = Some pack /\
     fst st' = title :: seen /\
     snd st' = products ++
       [ {| upload_ts := stamp; page_url := url; page_number := number;
            source := site; product_title := title;
            brand := _extract_brand cfg title;
            product_type := _extract_product_type cfg title;
            fat_pct := _extract_fat title;
            pack_qty := qty pack; pack_unit := unit_ pack;
            price_current := price; price_old := None;
            discount_pct := [];
            price_per_l_or_kg_or_piece :=
              _calculate_price_per_unit price pack;
            rating := None;
            price_type := u "regular" |} ]).
Proof.
  cbv zeta. unfold regex_step.
  generalize (_to_num (group 2 m)) as price.
  generalize (_clean_text (group 1 m)) as title.
  intros title price.
  destruct title as [|c title']; [left; auto|].
  cbv iota. set (title := c :: title').
  destruct (List.length title <? 5)%nat eqn:H5; [left; auto|].
  destruct (200 <? List.length title)%nat eqn:H200; [left; auto|].
  cbn [orb].
  destruct (mem title seen) eqn:Hmem; [left; auto|].
  destruct (flt price (float_of_Z 5)) eqn:Hlo; [left; auto|].
  destruct (flt (float_of_Z 2000) price) eqn:Hhi; [left; auto|].
  cbn [orb].
  destruct (_extract_pack title) as [pack|] eqn:Hpack; [|left; auto].
  right. exists pack.
  apply Nat.ltb_ge in H5. apply Nat.ltb_ge in H200.
  cbn [fst snd]. repeat split; auto.
Qed.

End RecordShape.

Section FieldFacts.
Import Py Re config logging Parser.
Context {U : Unicode} (cfg : Config).

Lemma str_eqb_eq (a b : str) : str_eqb a b = true <-> a = b.
Proof.
  unfold str_eqb. destruct (list_eq_dec N.eq_dec a b); split; intros H;
    auto; discriminate.
Qed.

Lemma mem_In (x : str) (l : list str) : mem x l = true <-> In x l.
Proof.
  unfold mem. rewrite existsb_exists. split.
  - intros (y & Hy & E). apply str_eqb_eq in E. now subst.
  - intros H. exists x. split; [exact H|]. now apply str_eqb_eq.
Qed.

(** [_clean_text] leaves no white space at the ends, and no white space
    character other than the plain space. *)
Lemma clean_text_shape (text : str) :
  stripped (_clean_text text) /\ plain_spaces (_clean_text text).
Proof.
  unfold _clean_text. split; [apply strip_stripped|].
  unfold plain_spaces. apply strip_Forall. apply sub_spaces_plain.
Qed.

(** The category is one of the mapping, found by one of its keywords, or
    it is empty and no keyword of the mapping occurs in the title. *)
Lemma extract_product_type_cases (title : str) :
  (_extract_product_type cfg title = [] /\
   forall category keywords keyword,
     In (category, keywords) (PRODUCT_TYPES cfg) -> In keyword keywords ->
     contains keyword (lower title) = false) \/
  (exists keywords keyword,
     In (_extract_product_type cfg title, keywords) (PRODUCT_TYPES cfg) /\
     In keyword keywords /\
     contains keyword (lower title) = true).
Proof.
  unfold _extract_product_type.
  destruct (find _ (PRODUCT_TYPES cfg)) as [[category keywords]|] eqn:E.
  - right. apply find_some in E. destruct E as [Hin Hex].
    cbn [fst snd] in *. apply existsb_exists in Hex.
    destruct Hex as (keyword & Hk & Hc). exists keywords, keyword. auto.
  - left. split; [reflexivity|].
    intros category keywords keyword Hin Hk.
    pose proof (find_none _ _ E _ Hin) as Hnone. cbn [snd] in Hnone.
    destruct (contains keyword (lower title)) eqn:Hc; [|reflexivity].
    assert (Hex : existsb (fun kw => contains kw (lower title)) keywords = true).
    { apply existsb_exists. exists keyword. auto. }
    rewrite Hex in Hnone. discriminate.
Qed.

(** A fat percentage that is returned reads as a number from 0 to 50
    and holds no comma. *)
Lemma first_fat_range (patterns : list regex) (title : str) :
  first_fat patterns title = [] \/
  (exists x,
     float_of_str (first_fat patterns title) = Some x /\
     fle (float_of_Z 0) x = true /\ fle x (float_of_Z 50) = true) /\
  Forall (fun c => c <> ch ",") (first_fat patterns title).
Proof.
  induction patterns as [|pattern rest IH]; cbn [first_fat]; [now left|].
  destruct (search true pattern title) as [m|]; [|exact IH].
  destruct (float_of_str (replace (ch ",") (ch ".") (group 1 m)))
    as [x|] eqn:Hx; [|exact IH].
  destruct (fle (float_of_Z 0) x && fle x (float_of_Z 50)) eqn:Hr;
    [|exact IH].
  right. apply andb_true_iff in Hr. split.
  - exists x. tauto.
  - apply replace_removes. discriminate.
Qed.

(** A rating that is returned lies between 1 and 5. *)
Lemma first_rating_range (patterns : list regex) (text : str) (r : float) :
  first_rating patterns text = Some r ->
  fle (float_of_Z 1) r = true /\ fle r (float_of_Z 5) = true.
Proof.
  induction patterns as [|pattern rest IH]; cbn [first_rating];
    [discriminate|].
  destruct (search false pattern text) as [m|]; [|exact IH].
  destruct (fle (float_of_Z 1) (_to_num (group 1 m))
            && fle (_to_num (group 1 m)) (float_of_Z 5)) eqn:Hr; [|exact IH].
  intros [= <-]. now apply andb_true_iff in Hr.
Qed.

(** The unit of a pack is one of the table, or it is empty together
    with the quantity. *)
Lemma first_pack_units (patterns : list (regex * str * Z)) (title : str)
    (pack : Pack) :
  first_pack patterns title = Some pack ->
  (unit_ pack = [] /\ qty pack = None) \/
  In (unit_ pack) (map (fun p => snd (fst p)) patterns).
Proof.
  induction patterns as [|[[regex unit] multiply] rest IH]; cbn [first_pack].
  - intros [= <-]. left. auto.
  - destruct (search true regex title) as [m|].
    + unfold bind.
      destruct (float_mul_int (_to_num (group 1 m)) multiply) as [x|];
        [|discriminate].
      destruct (round x) as [n|]; [|discriminate].
      intros [= <-]. right. now left.
    + intros H. destruct (IH H) as [Hl|Hr]; [now left|right; now right].
Qed.

(** The prices of an element: the current price, and the old one when a
    discount is reported, lie strictly between 5 and 2000; the old price
    and the discount come together with the type "discount". *)
Lemma extract_prices_cases (text : str) (info : PriceInfo) :
  _extract_prices text = Some info ->
  in_bounds (current info) = true /\
  ((type_ info = u "regular" /\ old info = None /\ discount info = []) \/
   (type_ info = u "discount" /\
    (exists o, old info = Some o /\ in_bounds o = true) /\
    (exists m, search false discount_regex text = Some m /\
               discount info = group 1 m))).
Proof.
  unfold _extract_prices.
  destruct (filter in_bounds _) as [|price rest] eqn:E; [discriminate|].
  assert (Hall : Forall (fun x => in_bounds x = true) (price :: rest)).
  { rewrite <- E. apply Forall_forall. intros x Hx.
    now apply filter_In in Hx. }
  inversion Hall as [|? ? Hprice Hrest]; subst.
  destruct (search false discount_regex text) as [m|].
  - destruct rest as [|second rest'].
    + intros [= <-]. cbn. auto.
    + inversion Hrest as [|? ? Hsecond _]; subst.
      intros [= <-]. cbn. split; [exact Hprice|]. right.
      split; [reflexivity|]. split; [now exists second|now exists m].
  - intros [= <-]. cbn. auto.
Qed.

End FieldFacts.

Section RecordFacts.
Import Py Re config logging Parser.
Context {U : Unicode} (cfg : Config) (url stamp : str) (number : Z).
Context (HAS_BS4 : bool) (BeautifulSoup : str -> str + Soup).

(** Lifting a property from the two places that build a record. *)
Lemma emitted_record (P : Product -> Prop) (html : str) :
  (forall e q, _parse_element cfg url stamp number e = Some q -> P q) ->
  (forall seen products m,
     Forall P products ->
     Forall P (snd (regex_step cfg url stamp number (seen, products) m))) ->
  forall p,
    In p
      (fst (extract_products cfg url stamp number HAS_BS4 BeautifulSoup html)) ->
    P p.
Proof.
  intros Hparsed Hmined p Hin.
  pose proof (extract_products_Forall cfg url stamp number P Hparsed) as Hall.
  assert (Hst : forall st m, Forall P (snd st) ->
            Forall P (snd (regex_step cfg url stamp number st m))).
  { intros [seen products] m. apply Hmined. }
  specialize (Hall Hst HAS_BS4 BeautifulSoup html).
  rewrite Forall_forall in Hall. now apply Hall.
Qed.

(** The same for a property that is read off the fields of the record
    appended by a step. *)
Lemma mined_step (P : Product -> Prop) :
  (forall title price pack,
     (5 <= List.length title <= 200)%nat ->
     (exists raw, title = _clean_text raw) ->
     _extract_pack title = Some pack ->
     P {| upload_ts := stamp; page_url := url; page_number := number;
          source := site; product_title := title;
          brand := _extract_brand cfg title;
          product_type := _extract_product_type cfg title;
          fat_pct := _extract_fat title;
          pack_qty := qty pack; pack_unit := unit_ pack;
          price_current := price; price_old := None;
          discount_pct := [];
          price_per_l_or_kg_or_piece :=
            _calculate_price_per_unit price pack;
          rating := None;
          price_type := u "regular" |}) ->
  forall seen products m,
    Forall P products ->
    Forall P (snd (regex_step cfg url stamp number (seen, products) m)).
Proof.
  intros Hrecord seen products m Hall.
  destruct (regex_step_inv cfg url stamp number seen products m)
    as [[Hsame _]|(pack & Hlen & _ & _ & _ & Hpack & _ & Happ)].
  - now rewrite Hsame.
  - rewrite Happ. apply Forall_app. split; [exact Hall|].
    constructor; [|constructor].
    apply Hrecord; [exact Hlen|now exists (group 1 m)|exact Hpack].
Qed.

(** X1. Every emitted record carries the batch stamp, the page URL and
    the page number handed to the extractor, and the fixed source. *)
Theorem record_provenance (html : str) (p : Product) :
  In p
    (fst (extract_products cfg url stamp number HAS_BS4 BeautifulSoup html)) ->
  upload_ts p = stamp /\ page_url p = url /\ page_number p = number /\
  source p = u "https://silpo.ua".
Proof.
  intros Hin. pattern p. revert p Hin. apply emitted_record.
  - intros e q Hq. apply parse_element_inv in Hq.
    destruct Hq as (title & info & pack & _ & _ & _ & _ & ->). cbn. auto.
  - apply mined_step. intros title price pack _ _ _. cbn. auto.
Qed.

(** X2. The title of every emitted record has 5 to 200 characters, no
    white space at either end, and no white space character other than
    the plain space. *)
Theorem record_title_shape (html : str) (p : Product) :
  In p
    (fst (extract_products cfg url stamp number HAS_BS4 BeautifulSoup html)) ->
  (5 <= List.length (product_title p) <= 200)%nat /\
  stripped (product_title p) /\ plain_spaces (product_title p).
Proof.
  intros Hin. pattern p. revert p Hin. apply emitted_record.
  - intros e q Hq. apply parse_element_inv in Hq.
    destruct Hq as (title & info & pack & Htitle & Hlen & _ & _ & ->).
    cbn [product_title].
    destruct (extract_title_shape _ _ Htitle) as (_ & Hplain & Hs & _ & H200).
    auto.
  - apply mined_step. intros title price pack Hlen [raw ->] _.
    cbn [product_title]. destruct (clean_text_shape raw). auto.
Qed.

(** X3. The product type of every emitted record is a category of the
    configured mapping, one of whose keywords occurs in the lower-cased
    title, or it is empty and no keyword of the mapping occurs there. *)
Theorem record_product_type (html : str) (p : Product) :
  In p
    (fst (extract_products cfg url stamp number HAS_BS4 BeautifulSoup html)) ->
  (product_type p = [] /\
   forall category keywords keyword,
     In (category, keywords) (PRODUCT_TYPES cfg) -> In keyword keywords ->
     contains keyword (lower (product_title p)) = false) \/
  (exists keywords keyword,
     In (product_type p, keywords) (PRODUCT_TYPES cfg) /\
     In keyword keywords /\
     contains keyword (lower (product_title p)) = true).
Proof.
  intros Hin. pattern p. revert p Hin. apply emitted_record.
  - intros e q Hq. apply parse_element_inv in Hq.
    destruct Hq as (title & info & pack & _ & _ & _ & _ & ->).
    cbn [product_type product_title]. apply extract_product_type_cases.
  - apply mined_step. intros title price pack _ _ _.
    cbn [product_type product_title]. apply extract_product_type_cases.
Qed.

(** X4. The fat percentage of every emitted record is empty, or it is a
    decimal literal without a comma whose value lies between 0 and 50. *)
Theorem record_fat_range (html : str) (p : Product) :
  In p
    (fst (extract_products cfg url stamp number HAS_BS4 BeautifulSoup html)) ->
  fat_pct p = [] \/
  (exists x,
     float_of_str (fat_pct p) = Some x /\
     fle (float_of_Z 0) x = true /\ fle x (float_of_Z 50) = true) /\
  Forall (fun c => c <> ch ",") (fat_pct p).
Proof.
  intros Hin. pattern p. revert p Hin. apply emitted_record.
  - intros e q Hq. apply parse_element_inv in Hq.
    destruct Hq as (title & info & pack & _ & _ & _ & _ & ->).
    cbn [fat_pct]. apply first_fat_range.
  - apply mined_step. intros title price pack _ _ _.
    cbn [fat_pct]. apply first_fat_range.
Qed.

(** X5. A rating, when an emitted record has one, lies between 1 and
    5. *)
Theorem record_rating_range (html : str) (p : Product) (r : float) :
  In p
    (fst (extract_products cfg url stamp number HAS_BS4 BeautifulSoup html)) -> rating p = Some r ->
  fle (float_of_Z 1) r = true /\ fle r (float_of_Z 5) = true.
Proof.
  intros Hin. revert r. pattern p. revert p Hin. apply emitted_record.
  - intros e q Hq r. apply parse_element_inv in Hq.
    destruct Hq as (title & info & pack & _ & _ & _ & _ & ->).
    cbn [rating]. apply first_rating_range.
  - apply mined_step. intros title price pack _ _ _ r. cbn [rating].
    discriminate.
Qed.

(** X6. The pack unit of every emitted record is empty, "мл", "г" or
    "шт"; it is empty only together with the quantity, so a quantity
    never comes without its unit. *)
Theorem record_pack_unit (html : str) (p : Product) :
  In p
    (fst (extract_products cfg url stamp number HAS_BS4 BeautifulSoup html)) ->
  (pack_unit p = [] /\ pack_qty p = None) \/
  pack_unit p = u "мл" \/ pack_unit p = u "г" \/ pack_unit p = u "шт".
Proof.
  assert (Hpack : forall title pack, _extract_pack title = Some pack ->
            (unit_ pack = [] /\ qty pack = None) \/
            unit_ pack = u "мл" \/ unit_ pack = u "г" \/ unit_ pack = u "шт").
  { intros title pack H. apply first_pack_units in H.
    destruct H as [H|H]; [now left|right].
    cbn in H. fold (u "мл") (u "г") (u "шт") in H.
    destruct H as [H|[H|[H|[H|[H|[]]]]]]; rewrite <- H; auto. }
  intros Hin. pattern p. revert p Hin. apply emitted_record.
  - intros e q Hq. apply parse_element_inv in Hq.
    destruct Hq as (title & info & pack & _ & _ & _ & Hp & ->).
    cbn [pack_unit pack_qty]. now apply Hpack with title.
  - apply mined_step. intros title price pack _ _ Hp.
    cbn [pack_unit pack_qty]. now apply Hpack with title.
Qed.

(** X7. The price type of every emitted record is "regular", with no
    old price and no discount, or "discount", with an old price that lies
    strictly between 5 and 2000. *)
Theorem record_price_type (html : str) (p : Product) :
  In p
    (fst (extract_products cfg url stamp number HAS_BS4 BeautifulSoup html)) ->
  (price_type p = u "regular" /\ price_old p = None /\ discount_pct p = []) \/
  (price_type p = u "discount" /\
   exists o, price_old p = Some o /\ in_bounds o = true).
Proof.
  intros Hin. pattern p. revert p Hin. apply emitted_record.
  - intros e q Hq. apply parse_element_inv in Hq.
    destruct Hq as (title & info & pack & _ & _ & Hprices & _ & ->).
    cbn [price_type price_old discount_pct].
    apply extract_prices_cases in Hprices.
    destruct Hprices as (_ & [H|(Ht & Ho & _)]); [now left|right; auto].
  - apply mined_step. intros title price pack _ _ _. cbn. auto.
Qed.

End RecordFacts.

Section RecordWitnesses.
Import Py Re config logging Parser Scenarios.

Lemma milk_record_emitted : In milk_record milk_records.
Proof. vm_compute. left. reflexivity. Qed.

Lemma record_provenance_witness :
  upload_ts milk_record = a_stamp /\
  page_url milk_record = BASE_URL default /\
  page_number milk_record = 1%Z /\
  source milk_record = u "https://silpo.ua".
Proof.
  exact (record_provenance default (BASE_URL default) a_stamp 1 true
           (fun _ => inr milk_soup) some_markup milk_record
           milk_record_emitted).
Defined.

Lemma record_title_shape_witness :
  (5 <= List.length (product_title milk_record) <= 200)%nat /\
  stripped (product_title milk_record) /\
  plain_spaces (product_title milk_record).
Proof.
  exact (record_title_shape default (BASE_URL default) a_stamp 1 true
           (fun _ => inr milk_soup) some_markup milk_record
           milk_record_emitted).
Defined.

Lemma record_product_type_witness :
  exists keywords keyword,
    In (u "молоко", keywords) (PRODUCT_TYPES default) /\
    In keyword keywords /\
    contains keyword (lower (product_title milk_record)) = true.
Proof.
  destruct (record_product_type default (BASE_URL default) a_stamp 1 true
              (fun _ => inr milk_soup) some_markup milk_record
              milk_record_emitted) as [[H _]|H].
  - discriminate H.
  - exact H.
Defined.

Lemma record_fat_range_witness :
  exists x,
    float_of_str (fat_pct milk_record) = Some x /\
    fle (float_of_Z 0) x = true /\ fle x (float_of_Z 50) = true.
Proof.
  destruct (record_fat_range default (BASE_URL default) a_stamp 1 true
              (fun _ => inr milk_soup) some_markup milk_record
              milk_record_emitted) as [H|[H _]].
  - discriminate H.
  - exact H.
Defined.

Lemma record_rating_range_witness :
  fle (float_of_Z 1) (dec 45 1) = true /\ fle (dec 45 1) (float_of_Z 5) = true.
Proof.
  apply (record_rating_range default (BASE_URL default) a_stamp 1 true
           (fun _ => inr rated_soup) some_markup rated_record (dec 45 1)).
  - vm_compute. left. reflexivity.
  - reflexivity.
Defined.

Lemma record_pack_unit_witness :
  (pack_unit milk_record = [] /\ pack_qty milk_record = None) \/
  pack_unit milk_record = u "мл" \/ pack_unit milk_record = u "г" \/
  pack_unit milk_record = u "шт".
Proof.
  exact (record_pack_unit default (BASE_URL default) a_stamp 1 true
           (fun _ => inr milk_soup) some_markup milk_record
           milk_record_emitted).
Defined.

Lemma record_price_type_witness :
  (price_type milk_record = u "regular" /\ price_old milk_record = None /\
   discount_pct milk_record = []) \/
  (price_type milk_record = u "discount" /\
   exists o, price_old milk_record = Some o /\ in_bounds o = true).
Proof.
  exact (record_price_type default (BASE_URL default) a_stamp 1 true
           (fun _ => inr milk_soup) some_markup milk_record
           milk_record_emitted).
Defined.

End RecordWitnesses.

(** ** White space runs and [_clean_text] *)

Section CleanTextFacts.
Import Py Re config logging Parser.
Context {U : Unicode}.

(** The greedy [\s+] consumes the whole run of white space. *)
Lemma rep_spaces (rest : str) :
  forall (lo pos : nat) (prev : option char) (caps : list (nat * str)),
  match rep false true spc lo None pos prev rest
          (fun p pr rs => Some (MState p pr rs caps)) with
  | Some st =>
      m_pos st = (pos + leading_spaces rest)%nat /\ m_caps st = caps /\
      (lo <= leading_spaces rest)%nat
  | None => (leading_spaces rest < lo)%nat
  end.
Proof.
  induction rest as [|c rest IH]; intros lo pos prev caps.
  - cbn [rep leading_spaces]. destruct (lo =? 0)%nat eqn:Hlo.
    + apply Nat.eqb_eq in Hlo. cbn [m_pos m_caps].
      repeat split; [lia|lia].
    + apply Nat.eqb_neq in Hlo. lia.
  - cbn [rep leading_spaces hi_allows hi_pred option_map andb].
    rewrite atom_ok_spc. destruct (isspace c).
    + specialize (IH (pred lo) (S pos) (Some c) caps).
      destruct (rep false true spc (pred lo) None (S pos) (Some c) rest _)
        as [st|].
      * destruct IH as (Hpos & Hcaps & Hlo).
        repeat split; [lia|exact Hcaps|lia].
      * destruct (lo =? 0)%nat eqn:Hlo; [apply Nat.eqb_eq in Hlo; lia|lia].
    + destruct (lo =? 0)%nat eqn:Hlo.
      * apply Nat.eqb_eq in Hlo. cbn [m_pos m_caps].
        repeat split; [lia|lia].
      * apply Nat.eqb_neq in Hlo. lia.
Qed.

Lemma match_spaces (pos : nat) (prev : option char) (rest : str) :
  match_at false spaces pos prev rest =
  match leading_spaces rest with
  | O => None
  | S n => Some (RMatch pos (pos + S n) [])
  end.
Proof.
  unfold match_at, spaces, plus. cbn [mt m_pos m_prev m_rest m_caps].
  pose proof (rep_spaces rest 1 pos prev []) as H.
  destruct (rep false true spc 1 None pos prev rest _) as [st|].
  - destruct H as (Hpos & Hcaps & Hlo).
    destruct (leading_spaces rest) as [|n]; [lia|].
    now rewrite Hpos, Hcaps.
  - destruct (leading_spaces rest) as [|n]; [reflexivity|lia].
Qed.

(** [re.sub(r'\s+', ' ', s)] puts one plain space for every run of
    white space. *)
Lemma sub_spaces_collapse (rest : str) :
  (forall pos prev,
     sub_from false spaces (u " ") 0 pos prev rest = collapse_runs false rest) /\
  (forall pos prev,
     sub_from false spaces (u " ") (leading_spaces rest) pos prev rest
     = collapse_runs true rest).
Proof.
  induction rest as [|c rest [IHa IHb]].
  - split; intros pos prev; cbn [leading_spaces sub_from collapse_runs];
      rewrite match_spaces; reflexivity.
  - assert (Ha : forall pos prev,
              sub_from false spaces (u " ") 0 pos prev (c :: rest)
              = collapse_runs false (c :: rest)).
    { intros pos prev. cbn [sub_from collapse_runs].
      rewrite match_spaces. cbn [leading_spaces].
      destruct (isspace c).
      - cbn [m_end].
        replace (pos + S (leading_spaces rest) =? pos)%nat with false
          by (symmetry; apply Nat.eqb_neq; lia).
        replace (pos + S (leading_spaces rest) - pos - 1)%nat
          with (leading_spaces rest) by lia.
        cbn [app]. change (u " " ++ ?x) with (ch " " :: x).
        now rewrite IHb.
      - now rewrite IHa. }
    split; [exact Ha|].
    intros pos prev. cbn [leading_spaces].
    destruct (isspace c) eqn:Hc.
    + cbn [sub_from collapse_runs]. rewrite Hc. apply IHb.
    + rewrite Ha. cbn [collapse_runs]. now rewrite Hc.
Qed.

Lemma single_spaced_weaken (s : str) :
  single_spaced true s -> single_spaced false s.
Proof.
  destruct s as [|c s]; [auto|]. cbn [single_spaced].
  destruct (isspace c); [|auto]. intros (_ & H & _). discriminate.
Qed.

Lemma collapse_single_spaced (s : str) :
  forall b, single_spaced b (collapse_runs b s).
Proof.
  induction s as [|c s IH]; intros b; [exact I|].
  cbn [collapse_runs]. destruct (isspace c) eqn:Hc.
  - destruct b; [apply IH|].
    cbn [single_spaced]. destruct (isspace (ch " ")).
    + repeat split. apply IH.
    + apply single_spaced_weaken, IH.
  - cbn [single_spaced]. rewrite Hc.
    destruct b; apply IH.
Qed.

Lemma collapse_fixed (s : str) :
  forall b, single_spaced b s -> collapse_runs b s = s.
Proof.
  induction s as [|c s IH]; intros b; [reflexivity|].
  cbn [single_spaced collapse_runs]. destruct (isspace c).
  - intros (-> & -> & H). f_equal. now apply IH.
  - intros H. f_equal. now apply IH.
Qed.

Lemma single_spaced_tail (b : bool) (c : char) (s : str) :
  single_spaced b (c :: s) -> single_spaced false s.
Proof.
  cbn [single_spaced]. destruct (isspace c).
  - intros (_ & _ & H). now apply single_spaced_weaken.
  - auto.
Qed.

Lemma single_spaced_prefix (s t : str) :
  forall b, single_spaced b (s ++ t) -> single_spaced b s.
Proof.
  induction s as [|c s IH]; intros b; [intros _; exact I|].
  cbn [app single_spaced]. destruct (isspace c).
  - intros (H1 & H2 & H). repeat split; auto.
  - apply IH.
Qed.

Lemma lstrip_single_spaced (s : str) :
  single_spaced false s -> single_spaced false (lstrip s).
Proof.
  induction s as [|c s IH]; [auto|]. intros H. cbn [lstrip].
  destruct (isspace c); [|exact H].
  apply IH. now apply single_spaced_tail in H.
Qed.

(** What [lstrip] removes is a prefix. *)
Lemma lstrip_suffix (s : str) : exists removed, s = removed ++ lstrip s.
Proof.
  induction s as [|c s [removed IH]]; [now exists []|].
  cbn [lstrip]. destruct (isspace c).
  - exists (c :: removed). cbn [app]. now f_equal.
  - now exists [].
Qed.

Lemma rstrip_prefix (s : str) : exists removed, s = rstrip s ++ removed.
Proof.
  unfold rstrip. destruct (lstrip_suffix (rev s)) as [removed H].
  exists (rev removed).
  rewrite <- rev_app_distr, <- H. symmetry. apply rev_involutive.
Qed.

Lemma strip_single_spaced (s : str) :
  single_spaced false s -> single_spaced false (strip s).
Proof.
  intros H. unfold strip. apply lstrip_single_spaced in H.
  destruct (rstrip_prefix (lstrip s)) as [removed E].
  rewrite E in H. now apply single_spaced_prefix in H.
Qed.

(** [_clean_text] by its effect on runs of white space. *)
Lemma clean_text_collapse (text : str) :
  _clean_text text =
  strip (collapse_runs false (replace CR (ch " ") (replace LF (ch " ") text))).
Proof.
  unfold _clean_text, sub. f_equal. apply sub_spaces_collapse.
Qed.

Lemma clean_text_single_spaced (text : str) :
  single_spaced false (_clean_text text).
Proof.
  rewrite clean_text_collapse. apply strip_single_spaced.
  apply collapse_single_spaced.
Qed.

Lemma collapse_Forall (P : char -> Prop) (s : str) :
  P (ch " ") -> Forall P s -> forall b, Forall P (collapse_runs b s).
Proof.
  intros Hsp. induction 1 as [|c s Hc _ IH]; intros b; [constructor|].
  cbn [collapse_runs]. destruct (isspace c).
  - destruct b; [apply IH|constructor; [exact Hsp|apply IH]].
  - constructor; [exact Hc|apply IH].
Qed.

Lemma clean_text_fixed (text : str) :
  _clean_text (_clean_text text) = _clean_text text.
Proof.
  assert (Hno : forall x, ch " " <> x -> x = CR \/ x = LF ->
            Forall (fun c => c <> x) (_clean_text text)).
  { intros x Hx Hcase. rewrite clean_text_collapse.
    apply strip_Forall. apply collapse_Forall; [exact Hx|].
    destruct Hcase as [-> | ->].
    - now apply replace_removes.
    - apply replace_keeps; [exact Hx|]. now apply replace_removes. }
  rewrite (clean_text_collapse (_clean_text text)).
  rewrite (replace_absent LF), (replace_absent CR);
    try (apply Hno; [discriminate|auto]).
  rewrite (collapse_fixed _ false (clean_text_single_spaced text)).
  apply strip_of_stripped. apply clean_text_shape.
Qed.

(** X8. [_clean_text] is idempotent, and in its result white space
    comes one plain space at a time, with none at either end. *)
Theorem clean_text_idempotent (text : str) :
  _clean_text (_clean_text text) = _clean_text text /\
  single_spaced false (_clean_text text) /\
  stripped (_clean_text text).
Proof.
  split; [apply clean_text_fixed|].
  split; [apply clean_text_single_spaced|apply clean_text_shape].
Qed.

End CleanTextFacts.

(** ** The two strategies, record by record *)

Section StrategyFacts.
Import Py Re config logging Parser.
Context {U : Unicode} (cfg : Config) (url stamp : str) (number : Z).

Lemma parse_elements_fst (selector : str) (elements : list Element) :
  forall products,
    fst (parse_elements cfg url stamp number selector elements products)
    = products ++ records_of cfg url stamp number elements.
Proof.
  induction elements as [|e rest IH]; intros products.
  - cbn. now rewrite app_nil_r.
  - cbn [parse_elements records_of flat_map].
    specialize (IH (match _parse_element cfg url stamp number e with
                    | Some product => products ++ [product]
                    | None => products
                    end)).
    destruct (parse_elements cfg url stamp number selector rest _) as [out tr].
    cbn [fst] in *. rewrite IH. fold (records_of cfg url stamp number rest).
    destruct (_parse_element cfg url stamp number e) as [p|].
    + now rewrite <- app_assoc.
    + reflexivity.
Qed.

Lemma try_selectors_first (soup : Soup) (sels : list str) :
  let out := fst (try_selectors cfg url stamp number soup sels []) in
  (out = [] /\
   forall sel, In sel sels -> ~ productive cfg url stamp number soup sel) \/
  (exists before sel after elements,
     sels = before ++ sel :: after /\
     (forall s, In s before -> ~ productive cfg url stamp number soup s) /\
     soup sel = Some elements /\
     (3 < List.length elements)%nat /\
     out <> [] /\
     out = records_of cfg url stamp number elements).
Proof.
  cbv zeta. induction sels as [|sel rest IH].
  - left. split; [reflexivity|]. intros sel [].
  - assert (Hcase :
      (exists elements,
         soup sel = Some elements /\ (3 < List.length elements)%nat /\
         records_of cfg url stamp number elements <> [] /\
         fst (try_selectors cfg url stamp number soup (sel :: rest) [])
         = records_of cfg url stamp number elements) \/
      (~ productive cfg url stamp number soup sel /\
       fst (try_selectors cfg url stamp number soup (sel :: rest) [])
       = fst (try_selectors cfg url stamp number soup rest []))).
    { cbn [try_selectors].
      destruct (soup sel) as [elements|] eqn:Hsel.
      - destruct (3 <? List.length elements)%nat eqn:Hlen.
        + pose proof (parse_elements_fst sel elements []) as Hfst.
          destruct (parse_elements cfg url stamp number sel elements [])
            as [products' tr1].
          cbn [fst app] in Hfst. destruct products' as [|p ps].
          * right. split.
            -- intros (els & Hels & _ & Hne). rewrite Hsel in Hels.
               injection Hels as <-. now apply Hne.
            -- destruct (try_selectors cfg url stamp number soup rest [])
                 as [out tr]. reflexivity.
          * left. exists elements. apply Nat.ltb_lt in Hlen.
            cbn [fst]. rewrite <- Hfst.
            repeat split; auto; discriminate.
        + right. split.
          * intros (els & Hels & Hgt & _). rewrite Hsel in Hels.
            injection Hels as <-. apply Nat.ltb_ge in Hlen. lia.
          * destruct (try_selectors cfg url stamp number soup rest [])
              as [out tr]. reflexivity.
      - right. split.
        + intros (els & Hels & _). rewrite Hsel in Hels. discriminate.
        + destruct (try_selectors cfg url stamp number soup rest [])
            as [out tr]. reflexivity. }
    destruct Hcase as [(elements & Hsel & Hlen & Hne & Hout) | [Hno Hout]].
    + right. exists [], sel, rest, elements. rewrite Hout.
      repeat split; auto.
    + rewrite Hout. destruct IH as [[Hnil Hall] | IH].
      * left. split; [exact Hnil|]. intros s [<- | Hs]; auto.
      * right. destruct IH as (before & s & after & els & -> & Hb & IH).
        exists (sel :: before), s, after, els. split; [reflexivity|].
        split; [|exact IH]. intros s' [<- | Hs']; auto.
Qed.

(** X9. The structured strategy returns the records of one selector:
    the first, in the order of the list, that matches more than 3
    elements of which at least one parses; the records are those of its
    elements that parse, in their order.  It returns no record exactly
    when no selector is such. *)
Theorem structured_first_productive (soup : Soup) :
  (fst (_extract_with_beautifulsoup cfg url stamp number soup) = [] /\
   forall sel, In sel selectors ->
     ~ productive cfg url stamp number soup sel) \/
  (exists before sel after elements,
     selectors = before ++ sel :: after /\
     (forall s, In s before -> ~ productive cfg url stamp number soup s) /\
     soup sel = Some elements /\
     (3 < List.length elements)%nat /\
     fst (_extract_with_beautifulsoup cfg url stamp number soup) <> [] /\
     fst (_extract_with_beautifulsoup cfg url stamp number soup)
     = records_of cfg url stamp number elements).
Proof.
  unfold _extract_with_beautifulsoup. apply try_selectors_first.
Qed.

Lemma regex_step_state (Q : Product -> Prop) :
  (forall title pack price,
     (5 <= List.length title <= 200)%nat ->
     _clean_text title = title ->
     Q {| upload_ts := stamp; page_url := url; page_number := number;
          source := site; product_title := title;
          brand := _extract_brand cfg title;
          product_type := _extract_product_type cfg title;
          fat_pct := _extract_fat title;
          pack_qty := qty pack; pack_unit := unit_ pack;
          price_current := price; price_old := None;
          discount_pct := [];
          price_per_l_or_kg_or_piece :=
            _calculate_price_per_unit price pack;
          rating := None;
          price_type := u "regular" |}) ->
  forall st m, mined_state Q st ->
    mined_state Q (regex_step cfg url stamp number st m).
Proof.
  intros HQ [seen products] m (Hnd & Hseen & Hall).
  cbn [fst snd] in Hnd, Hseen, Hall.
  pose proof (regex_step_inv cfg url stamp number seen products m) as H.
  cbv zeta in H. unfold mined_state.
  destruct (regex_step cfg url stamp number (seen, products) m)
    as [seen' products'].
  cbn [fst snd] in *.
  destruct H as [[-> Hs] | (pack & Hlen & Hmem & _ & _ & _ & -> & ->)].
  - split; [exact Hnd|]. split; [|exact Hall].
    intros p Hp. destruct Hs as [-> | ->]; [auto|right; auto].
  - split; [|split].
    + rewrite map_app. cbn [map product_title].
      apply (NoDup_Add (Add_app (_clean_text (group 1 m))
                          (map product_title products) [])).
      rewrite app_nil_r. split; [exact Hnd|].
      intros Hin. apply in_map_iff in Hin. destruct Hin as (p & Hp & Hin).
      apply Hseen in Hin. rewrite Hp in Hin.
      apply (proj2 (mem_In _ _)) in Hin. congruence.
    + intros p Hp. apply in_app_or in Hp. destruct Hp as [Hp | [<- | []]].
      * right. auto.
      * left. reflexivity.
    + apply Forall_app. split; [exact Hall|].
      constructor; [|constructor]. apply HQ; [exact Hlen|].
      apply clean_text_fixed.
Qed.

(** X10. The records of the pattern strategy have pairwise distinct
    titles; each title is a text that [_clean_text] leaves as it is, of
    5 to 200 characters; and no record has an old price, a discount or a
    rating: its price type is regular. *)
Theorem mined_records (html : str) :
  NoDup (map product_title (_extract_with_regex cfg url stamp number html)) /\
  Forall (fun p =>
            _clean_text (product_title p) = product_title p /\
            (5 <= List.length (product_title p) <= 200)%nat /\
            price_old p = None /\ discount_pct p = [] /\
            rating p = None /\ price_type p = u "regular")
         (_extract_with_regex cfg url stamp number html).
Proof.
  unfold _extract_with_regex.
  set (Q := fun p : Product =>
            _clean_text (product_title p) = product_title p /\
            (5 <= List.length (product_title p) <= 200)%nat /\
            price_old p = None /\ discount_pct p = [] /\
            rating p = None /\ price_type p = u "regular").
  assert (H : forall matches st, mined_state Q st ->
            mined_state Q (fold_left (regex_step cfg url stamp number)
                             matches st)).
  { induction matches as [|m rest IH]; intros st Hst; [exact Hst|].
    cbn [fold_left]. apply IH. apply regex_step_state; [|exact Hst].
    intros title pack price Hlen Hfix. unfold Q.
    cbn [product_title price_old discount_pct rating price_type].
    repeat split; auto; lia. }
  destruct (H (finditer false price_pattern html) ([], [])) as (Hnd & _ & Hall).
  - split; [constructor|split; [intros p []|constructor]].
  - split; [exact Hnd|exact Hall].
Qed.

End StrategyFacts.

(** ** What [fetch_page] returns *)

Section FetchResults.
Import Py Re config logging Scraper.
Context {U : Unicode} (cfg : Config) (get : Z -> outcome) (url : str).

Lemma fails_try_attempt (k : Z) :
  fails get k = match try_attempt get k with inl _ => true | inr _ => false end.
Proof.
  unfold fails, failure. now destruct (try_attempt get k) as [[e w]|body].
Qed.

Lemma fails_failure (k : Z) : fails get k = true <-> failure get k <> None.
Proof.
  unfold fails. destruct (failure get k); split; congruence.
Qed.

(** A page that an attempt returns passed every check of the loop. *)
Lemma try_attempt_checked (k : Z) (body : str) :
  try_attempt get k = inr body ->
  exists response,
    get k = Responded response /\ text response = body /\
    (status_code response < 400)%Z /\
    (1000 <= List.length body)%nat /\
    (contains (u "DOCTYPE") (slice_to 500 body) = true \/
     contains (u "<html") (slice_to 500 body) = true).
Proof.
  unfold try_attempt. destruct (get k) as [response| |e|e]; try discriminate.
  unfold check_response.
  destruct (status_code response =? 404)%Z; [discriminate|].
  destruct (status_code response =? 403)%Z; [discriminate|].
  destruct (status_code response =? 429)%Z; [discriminate|].
  destruct (400 <=? status_code response)%Z eqn:Hcode; [discriminate|].
  destruct (List.length (text response) <? 1000)%nat eqn:Hlen; [discriminate|].
  destruct (contains (u "DOCTYPE") (slice_to 500 (text response))) eqn:Hd;
    destruct (contains (u "<html") (slice_to 500 (text response))) eqn:Hh;
    cbn [negb andb]; try discriminate;
    intros [= <-]; exists response;
    apply Z.leb_gt in Hcode; apply Nat.ltb_ge in Hlen;
    repeat split; auto.
Qed.

(** The requests of the loop are those of the attempts made. *)
Lemma attempts_requests (max_attempts : Z) (todo : list Z)
    (last_error : option str) :
  requests (snd (attempts cfg get url max_attempts todo last_error))
  = made get todo.
Proof.
  revert last_error. induction todo as [|k rest IH]; intros last_error.
  - reflexivity.
  - cbn [attempts made]. rewrite fails_try_attempt.
    destruct (try_attempt get k) as [[e w]|body].
    + specialize (IH (Some e)).
      destruct (attempts cfg get url max_attempts rest (Some e)) as [res tr].
      cbn [snd] in *. unfold requests in *. cbn [flat_map app].
      rewrite flat_map_app.
      replace (flat_map _ (if (k <? max_attempts)%Z then _ else _))
        with (@nil Z) by (destruct (k <? max_attempts)%Z; reflexivity).
      cbn [app]. now rewrite IH.
    + reflexivity.
Qed.

Lemma made_length (todo : list Z) :
  (List.length (made get todo) <= List.length todo)%nat.
Proof.
  induction todo as [|k rest IH]; [apply Nat.le_refl|].
  cbn [made]. destruct (fails get k); cbn [List.length]; lia.
Qed.

(** The loop returns nothing exactly when every attempt fails. *)
Lemma attempts_none (max_attempts : Z) (todo : list Z)
    (last_error : option str) :
  fst (attempts cfg get url max_attempts todo last_error) = None <->
  forall k, In k todo -> fails get k = true.
Proof.
  revert last_error. induction todo as [|k rest IH]; intros last_error.
  - cbn. split; [intros _ k []|reflexivity].
  - cbn [attempts]. pose proof (fails_try_attempt k) as Hk.
    destruct (try_attempt get k) as [[e w]|body].
    + specialize (IH (Some e)).
      destruct (attempts cfg get url max_attempts rest (Some e)) as [res tr].
      cbn [fst] in *. rewrite IH. split.
      * intros H j [<- | Hj]; auto.
      * intros H j Hj. apply H. now right.
    + cbn [fst]. split; [discriminate|].
      intros H. specialize (H k (or_introl eq_refl)). congruence.
Qed.

(** The loop returns the page of the first attempt that does not
    fail. *)
Lemma attempts_some (max_attempts : Z) (todo : list Z)
    (last_error : option str) (body : str) :
  fst (attempts cfg get url max_attempts todo last_error) = Some body ->
  exists before k after,
    todo = before ++ k :: after /\
    (forall j, In j before -> fails get j = true) /\
    try_attempt get k = inr body /\
    made get todo = before ++ [k].
Proof.
  revert last_error. induction todo as [|k rest IH]; intros last_error.
  - discriminate.
  - cbn [attempts made]. rewrite fails_try_attempt.
    destruct (try_attempt get k) as [[e w]|page] eqn:Hk.
    + specialize (IH (Some e)).
      destruct (attempts cfg get url max_attempts rest (Some e)) as [res tr].
      cbn [fst] in *. intros H.
      destruct (IH H) as (before & j & after & -> & Hb & Hj & Hm).
      exists (k :: before), j, after. repeat split; auto.
      * intros i [<- | Hi]; [|auto]. rewrite fails_try_attempt. now rewrite Hk.
      * cbn [app]. now rewrite Hm.
    + cbn [fst]. intros [= ->]. exists [], k, rest. repeat split; auto.
Qed.

(** A place in the list of the attempt numbers. *)
Lemma seq_place (len a : nat) (before : list Z) (k : Z) (after : list Z) :
  map Z.of_nat (List.seq a len) = before ++ k :: after ->
  k = Z.of_nat (a + List.length before) /\
  before ++ [k] = map Z.of_nat (List.seq a (S (List.length before))).
Proof.
  revert a before. induction len as [|len IH]; intros a before.
  - destruct before; discriminate.
  - destruct before as [|b before].
    + cbn. intros [= <- _]. split; [f_equal; lia|reflexivity].
    + cbn [List.seq map app]. intros [= <- H].
      destruct (IH (S a) before H) as [-> Hb]. split.
      * cbn [List.length]. f_equal. lia.
      * cbn [List.length]. rewrite Hb. reflexivity.
Qed.

(** X11. A page that [fetch_page] returns is the body of the response to
    some attempt k of 1..max_attempts: its status is below 400, the body
    has at least 1000 characters and shows DOCTYPE or <html among its
    first 500; every earlier attempt failed, and the requests made are
    exactly those of the attempts 1..k. *)
Theorem fetch_page_returns_checked_page (max_attempts : Z) (body : str) :
  fst (fetch_page cfg get url max_attempts) = Some body ->
  exists k response,
    (1 <= k <= max_attempts)%Z /\
    get k = Responded response /\ text response = body /\
    (status_code response < 400)%Z /\
    (1000 <= List.length body)%nat /\
    (contains (u "DOCTYPE") (slice_to 500 body) = true \/
     contains (u "<html") (slice_to 500 body) = true) /\
    (forall j, (1 <= j < k)%Z -> failure get j <> None) /\
    requests (snd (fetch_page cfg get url max_attempts)) = attempt_numbers k.
Proof.
  unfold fetch_page. intros H.
  rewrite attempts_requests.
  destruct (attempts_some _ _ _ _ H) as (before & k & after & E & Hb & Hk & Hm).
  destruct (try_attempt_checked k body Hk) as (response & Hr).
  unfold attempt_numbers in E.
  destruct (seq_place _ _ _ _ _ E) as [Ek Hbk].
  exists k, response.
  assert (Hin : In k (attempt_numbers max_attempts)).
  { unfold attempt_numbers. rewrite E. apply in_elt. }
  apply attempt_numbers_in in Hin.
  split; [exact Hin|].
  destruct Hr as (H1 & H2 & H3 & H4 & H5).
  repeat split; auto.
  - intros j Hj. apply fails_failure. apply Hb.
    assert (Hj' : In j (before ++ [k])).
    { rewrite Hbk. apply in_map_iff. exists (Z.to_nat j). split; [lia|].
      apply in_seq. lia. }
    apply in_app_or in Hj'. destruct Hj' as [Hj' | [<- | []]]; [exact Hj'|lia].
  - rewrite Hm, Hbk. unfold attempt_numbers. do 2 f_equal. lia.
Qed.

(** X12. [fetch_page] returns None exactly when each of the attempts
    1..max_attempts fails; whatever happens it makes at most
    max_attempts requests, and none when max_attempts is below 1: then
    it returns None and the ERROR record shows None as the reason. *)
Theorem fetch_page_none (max_attempts : Z) :
  (fst (fetch_page cfg get url max_attempts) = None <->
   forall k, (1 <= k <= max_attempts)%Z -> failure get k <> None) /\
  (Z.of_nat (List.length (requests (snd (fetch_page cfg get url max_attempts))))
   <= Z.max 0 max_attempts)%Z /\
  ((max_attempts < 1)%Z ->
   fetch_page cfg get url max_attempts =
   (None, [EvLog ERROR [Text (u "✗ Failed after " ++ str_of_Z max_attempts
                              ++ u " attempts: None")]])).
Proof.
  split; [|split].
  - unfold fetch_page. rewrite attempts_none. split.
    + intros H k Hk. apply fails_failure, H. now apply attempt_numbers_in.
    + intros H k Hk. apply fails_failure, H. now apply attempt_numbers_in.
  - unfold fetch_page. rewrite attempts_requests.
    pose proof (made_length (attempt_numbers max_attempts)) as H.
    unfold attempt_numbers in H at 2. rewrite length_map, length_seq in H.
    lia.
  - intros H. unfold fetch_page, attempt_numbers.
    replace (Z.to_nat max_attempts) with 0%nat by lia. reflexivity.
Qed.

(** X13. [fetch_page_selenium] returns None exactly when the rendering
    gave no page and each of 3 plain attempts fails: the fall-back makes
    at most 3 requests whatever RETRY_ATTEMPTS is.  A rendered page is
    returned as it is, without a request and without the checks of
    [fetch_page]. *)
Theorem fetch_page_selenium_result (selenium : rendering) :
  (fst (fetch_page_selenium cfg get selenium url) = None <->
   (forall html, selenium <> Rendered html) /\
   forall k, (1 <= k <= 3)%Z -> failure get k <> None) /\
  (List.length (requests (snd (fetch_page_selenium cfg get selenium url)))
   <= 3)%nat /\
  (forall html, selenium = Rendered html ->
     fst (fetch_page_selenium cfg get selenium url) = Some html /\
     requests (snd (fetch_page_selenium cfg get selenium url)) = []) /\
  ((forall html, selenium <> Rendered html) ->
   fst (fetch_page_selenium cfg get selenium url)
   = fst (fetch_page cfg get url 3)).
Proof.
  assert (Hnone : fst (fetch_page cfg get url 3) = None <->
                  forall k, (1 <= k <= 3)%Z -> failure get k <> None).
  { unfold fetch_page. rewrite attempts_none. split.
    - intros H k Hk. apply fails_failure, H. now apply attempt_numbers_in.
    - intros H k Hk. apply fails_failure, H. now apply attempt_numbers_in. }
  assert (Hreq : (List.length (requests (snd (fetch_page cfg get url 3)))
                  <= 3)%nat).
  { unfold fetch_page. rewrite attempts_requests.
    apply (made_length (attempt_numbers 3)). }
  unfold fetch_page_selenium.
  destruct selenium as [|e|html];
    try (destruct (fetch_page cfg get url 3) as [result tr]; cbn [fst snd] in *).
  - split; [|split; [|split]].
    + rewrite Hnone. split; [intros H; split; [discriminate|exact H]|].
      intros [_ H]. exact H.
    + exact Hreq.
    + intros html. discriminate.
    + reflexivity.
  - split; [|split; [|split]].
    + rewrite Hnone. split; [intros H; split; [discriminate|exact H]|].
      intros [_ H]. exact H.
    + exact Hreq.
    + intros html. discriminate.
    + reflexivity.
  - cbn [fst snd]. split; [|split; [|split]].
    + split; [discriminate|]. intros [H _]. now destruct (H html).
    + cbn. lia.
    + intros html' [= <-]. split; reflexivity.
    + intros H. now destruct (H html).
Qed.

End FetchResults.

Section ConnectivityFacts.
Import Py Re config logging Scraper Main.
Context {U : Unicode} (cfg : Config) (get : Z -> outcome).

Lemma test_connectivity_fetched :
  fst (test_connectivity cfg get) = true <->
  fst (fetch_page cfg get (BASE_URL cfg) 2) <> None.
Proof.
  unfold test_connectivity.
  pose proof (attempts_some cfg get (BASE_URL cfg) 2 (attempt_numbers 2) None)
    as Hs.
  fold (fetch_page cfg get (BASE_URL cfg) 2) in Hs.
  destruct (fetch_page cfg get (BASE_URL cfg) 2) as [[html|] tr];
    cbn [fst] in *.
  - split; [discriminate|]. intros _.
    destruct (Hs html eq_refl) as (before & k & after & _ & _ & Hk & _).
    destruct (try_attempt_checked get k html Hk) as (r & _ & _ & _ & Hlen & _).
    apply Nat.ltb_lt. lia.
  - split; [discriminate|congruence].
Qed.

Lemma test_connectivity_attempts :
  fst (test_connectivity cfg get) = true <->
  exists k, (1 <= k <= 2)%Z /\ failure get k = None.
Proof.
  rewrite test_connectivity_fetched.
  pose proof (attempts_none cfg get (BASE_URL cfg) 2 (attempt_numbers 2) None)
    as Hn.
  fold (fetch_page cfg get (BASE_URL cfg) 2) in Hn.
  split.
  - intros H.
    destruct (failure get 1) eqn:E1; [|exists 1%Z; split; [lia|exact E1]].
    destruct (failure get 2) eqn:E2; [|exists 2%Z; split; [lia|exact E2]].
    exfalso. apply H, Hn. intros k Hk. apply attempt_numbers_in in Hk.
    apply fails_failure. assert (k = 1 \/ k = 2)%Z as [-> | ->] by lia;
      congruence.
  - intros (k & Hk & E) H.
    pose proof (proj1 Hn H k (proj2 (attempt_numbers_in 2 k) Hk)) as Hf.
    apply fails_failure in Hf. congruence.
Qed.

Lemma test_connectivity_requests :
  (List.length (requests (snd (test_connectivity cfg get))) <= 2)%nat.
Proof.
  unfold test_connectivity.
  pose proof (attempts_requests cfg get (BASE_URL cfg) 2 (attempt_numbers 2)
                None) as Hr.
  pose proof (made_length get (attempt_numbers 2)) as Hm.
  fold (fetch_page cfg get (BASE_URL cfg) 2) in Hr.
  destruct (fetch_page cfg get (BASE_URL cfg) 2) as [html tr].
  cbn [snd] in *. rewrite Hr. exact Hm.
Qed.

(** X14. The connectivity test succeeds exactly when one of two attempts
    on the category page does not fail: the comparison of the length
    with 500 never decides, since a page that [fetch_page] returns has
    at least 1000 characters.  The test makes at most 2 requests. *)
Theorem test_connectivity_decided :
  (fst (test_connectivity cfg get) = true <->
   exists k, (1 <= k <= 2)%Z /\ failure get k = None) /\
  (fst (test_connectivity cfg get) = true <->
   fst (fetch_page cfg get (BASE_URL cfg) 2) <> None) /\
  (List.length (requests (snd (test_connectivity cfg get))) <= 2)%nat.
Proof.
  split; [apply test_connectivity_attempts|].
  split; [apply test_connectivity_fetched|apply test_connectivity_requests].
Qed.

End ConnectivityFacts.

Section FetchResultWitnesses.
Import Py Re config logging Scraper Scenarios.

(** After two timeouts the third attempt returns the page of 2000
    characters. *)
Lemma fetch_page_returns_checked_page_witness :
  let page := Responded {| status_code := 200; text := html_page |} in
  let get := answers [Timeout; Timeout; page] in
  fst (fetch_page default get (BASE_URL default) 3) = Some html_page /\
  exists k response,
    (1 <= k <= 3)%Z /\
    get k = Responded response /\ text response = html_page /\
    (status_code response < 400)%Z /\
    (1000 <= List.length html_page)%nat /\
    (contains (u "DOCTYPE") (slice_to 500 html_page) = true \/
     contains (u "<html") (slice_to 500 html_page) = true) /\
    (forall j, (1 <= j < k)%Z -> failure get j <> None) /\
    requests (snd (fetch_page default get (BASE_URL default) 3))
    = attempt_numbers k.
Proof.
  cbv zeta. split; [vm_compute; reflexivity|].
  apply (fetch_page_returns_checked_page default
           (answers [Timeout; Timeout;
                     Responded {| status_code := 200; text := html_page |}])
           (BASE_URL default) 3 html_page).
  vm_compute. reflexivity.
Defined.

End FetchResultWitnesses.

(** ** The run *)

Section RunFacts.
Import Py Re config logging Parser Scraper Main.
Context {U : Unicode} (cfg : Config).
Context (net : nat -> Z -> outcome) (selenium : rendering).
Context (time_sleep : float -> option str).
Context (HAS_BS4 : bool) (BeautifulSoup : str -> str + Soup).
Context (batch_stamp : str).

Lemma pauses_app (a b : list effect) : pauses (a ++ b) = pauses a ++ pauses b.
Proof. apply flat_map_app. Qed.

Lemma saved_app (a b : list effect) : saved (a ++ b) = saved a ++ saved b.
Proof. apply flat_map_app. Qed.



Lemma quiet_Net (tr : list Scraper.event) :
  pauses (map Net tr) = [] /\ saved (map Net tr) = [] /\
  rows (map Net tr) = [].
Proof. induction tr as [|e tr IH]; [auto|exact IH]. Qed.

Lemma quiet_Parse (tr : list Parser.event) :
  pauses (map Parse tr) = [] /\ saved (map Parse tr) = [] /\
  rows (map Parse tr) = [] /\ fetched (map Parse tr) = [].
Proof. induction tr as [|e tr IH]; [auto|exact IH]. Qed.


(** The records of a page carry the stamp of the batch, the URL of the
    page and its number. *)
Lemma extract_products_provenance (page : str) (number : Z) (html : str) :
  Forall (fun p => upload_ts p = batch_stamp /\ page_url p = page /\
                   page_number p = number)
    (fst (extract_products cfg page batch_stamp number HAS_BS4 BeautifulSoup
            html)).
Proof.
  apply Forall_forall. intros p Hin. pattern p. revert p Hin.
  apply emitted_record.
  - intros e q Hq. apply parse_element_inv in Hq.
    destruct Hq as (title & info & pack & _ & _ & _ & _ & ->). cbn. auto.
  - apply mined_step. intros title price pack _ _ _. cbn. auto.
Qed.

(** What the page of index [i] among [n] adds, when the pause
    returns. *)
Lemma scrape_page_step (n i : nat) (page : str) (all_products : list Product)
    (s : Stats) (r : (list Product * Stats) * list effect) :
  time_sleep (REQUEST_DELAY cfg) = None ->
  r = scrape_page cfg net selenium time_sleep HAS_BS4 BeautifulSoup batch_stamp
        n i page (all_products, s) ->
  exists (new : list Product) (failed : bool),
    fst r
    = (all_products ++ new,
       {| total_products := total_products s;
          pages_success :=
            pages_success s + match new with [] => 0 | _ => 1 end;
          pages_failed := pages_failed s + (if failed then 1 else 0);
          pages_processed := Z.of_nat i + 1 |}) /\
    (failed = true -> new = []) /\
    Forall (fun p => upload_ts p = batch_stamp /\ page_url p = page /\
                     page_number p = (Z.of_nat i + 1)%Z) new /\
    saved (snd r) = [] /\
    pauses (snd r) =
      (if negb failed && (Z.of_nat i <? Z.of_nat n - 1)%Z
       then [REQUEST_DELAY cfg] else []).
Proof.
  intros Hsleep ->. unfold scrape_page.
  destruct (if (i =? 0)%nat
            then fetch_page_selenium cfg (net 2) selenium page
            else fetch_page cfg (net (2 + i)) page (RETRY_ATTEMPTS cfg))
    as [html tr0].
  assert (Hfail :
    forall r,
      r = page_failed all_products
            {| total_products := total_products s;
               pages_success := pages_success s;
               pages_failed := pages_failed s;
               pages_processed := Z.of_nat i + 1 |}
            (Z.of_nat i + 1) page (u "Failed to fetch HTML") (map Net tr0) ->
      exists (new : list Product) (failed : bool),
        fst r
        = (all_products ++ new,
           {| total_products := total_products s;
              pages_success :=
                pages_success s + match new with [] => 0 | _ => 1 end;
              pages_failed := pages_failed s + (if failed then 1 else 0);
              pages_processed := Z.of_nat i + 1 |}) /\
        (failed = true -> new = []) /\
        Forall (fun p => upload_ts p = batch_stamp /\ page_url p = page /\
                         page_number p = (Z.of_nat i + 1)%Z) new /\
        saved (snd r) = [] /\
        pauses (snd r) =
          (if negb failed && (Z.of_nat i <? Z.of_nat n - 1)%Z
           then [REQUEST_DELAY cfg] else [])).
  { intros r ->. exists [], true. unfold page_failed.
    cbn [fst snd total_products pages_success pages_failed pages_processed].
    rewrite app_nil_r, Z.add_0_r. split; [reflexivity|].
    split; [reflexivity|]. split; [constructor|].
    rewrite saved_app, pauses_app.
    destruct (quiet_Net tr0) as (-> & -> & _). split; reflexivity. }
  destruct html as [[|c html]|]; [now apply Hfail| |now apply Hfail].
  pose proof (extract_products_provenance page (Z.of_nat i + 1) (c :: html))
    as Hprov.
  destruct (extract_products cfg page batch_stamp (Z.of_nat i + 1) HAS_BS4
              BeautifulSoup (c :: html)) as [products ptr].
  cbn [fst] in Hprov. rewrite Hsleep.
  exists products, false.
  assert (Hquiet : forall row tail,
            saved (map Net tr0 ++ map Parse ptr ++ [AppendLog row] ++ tail)
            = saved tail /\
            pauses (map Net tr0 ++ map Parse ptr ++ [AppendLog row] ++ tail)
            = pauses tail).
  { intros row tail. rewrite !saved_app, !pauses_app.
    destruct (quiet_Net tr0) as (-> & -> & _).
    destruct (quiet_Parse ptr) as (-> & -> & _). split; reflexivity. }
  rewrite Z.add_0_r. cbn [negb andb].
  destruct products as [|p ps].
  - rewrite app_nil_r, Z.add_0_r.
    cbn [total_products pages_success pages_failed pages_processed].
    destruct (Z.of_nat i <? Z.of_nat n - 1)%Z; cbn [fst snd];
      (split; [reflexivity|]); (split; [discriminate|]);
      (split; [constructor|]).
    + rewrite <- !app_assoc. apply Hquiet.
    + rewrite <- (app_nil_r (_ ++ _)), <- !app_assoc. apply Hquiet.
  - cbn [total_products pages_success pages_failed pages_processed].
    destruct (Z.of_nat i <? Z.of_nat n - 1)%Z; cbn [fst snd];
      (split; [reflexivity|]); (split; [discriminate|]);
      (split; [exact Hprov|]).
    + rewrite <- !app_assoc. apply Hquiet.
    + rewrite <- (app_nil_r (_ ++ _)), <- !app_assoc. apply Hquiet.
Qed.

(** The loop over the pages, from the page of index [i] on: what it
    adds to the records and to the counters, and its pauses. *)
Lemma scrape_pages_inv (page_urls : list str) :
  forall (done : list str) (n i : nat) (all_products : list Product)
         (s : Stats) (r : (list Product * Stats) * list effect),
  time_sleep (REQUEST_DELAY cfg) = None ->
  i = List.length done -> n = List.length (done ++ page_urls) ->
  r = scrape_pages cfg net selenium time_sleep HAS_BS4 BeautifulSoup
        batch_stamp n i page_urls (all_products, s) ->
  exists new : list Product,
    fst (fst r) = all_products ++ new /\
    Forall (fun p => upload_ts p = batch_stamp /\
                     exists j, page_number p = (Z.of_nat j + 1)%Z /\
                               nth_error (done ++ page_urls) j
                               = Some (page_url p)) new /\
    total_products (snd (fst r)) = total_products s /\
    pages_processed (snd (fst r))
    = match page_urls with [] => pages_processed s | _ => Z.of_nat n end /\
    (pages_success s <= pages_success (snd (fst r)))%Z /\
    (pages_success (snd (fst r)) = pages_success s <-> new = []) /\
    (pages_failed s <= pages_failed (snd (fst r)))%Z /\
    (pages_success (snd (fst r)) - pages_success s
     + (pages_failed (snd (fst r)) - pages_failed s)
     <= Z.of_nat (List.length page_urls))%Z /\
    saved (snd r) = [] /\
    Forall (eq (REQUEST_DELAY cfg)) (pauses (snd r)) /\
    (Z.of_nat (List.length (pauses (snd r)))
     + (pages_failed (snd (fst r)) - pages_failed s)
     <= Z.of_nat (List.length page_urls))%Z /\
    (Z.of_nat (List.length page_urls) - 1
     <= Z.of_nat (List.length (pauses (snd r)))
        + (pages_failed (snd (fst r)) - pages_failed s))%Z /\
    (Z.of_nat (List.length (pauses (snd r)))
     <= Z.max 0 (Z.of_nat (List.length page_urls) - 1))%Z.
Proof.
  induction page_urls as [|page rest IH];
    intros done n i all_products s r Hsleep Hi Hn ->.
  - exists []. cbn [scrape_pages fst snd]. rewrite app_nil_r.
    cbn. repeat split; auto; try lia.
  - cbn [scrape_pages].
    destruct (scrape_page_step n i page all_products s _ Hsleep eq_refl)
      as (new1 & failed & H1 & Hf & Hprov & Hsaved & Hpauses).
    destruct (scrape_page cfg net selenium time_sleep HAS_BS4 BeautifulSoup
                batch_stamp n i page (all_products, s)) as [[ap1 s1] tr1].
    cbn [fst snd] in H1, Hsaved, Hpauses. injection H1 as Hap1 Hs1.
    assert (Hi' : S i = List.length (done ++ [page]))
      by (rewrite length_app; cbn; lia).
    assert (Hn' : n = List.length ((done ++ [page]) ++ rest))
      by (rewrite <- app_assoc; exact Hn).
    destruct (IH (done ++ [page]) n (S i) ap1 s1 _ Hsleep Hi' Hn' eq_refl)
      as (new2 & H2 & Hprov2 & Ht & Hp & Hs & Hs0 & Hfl & Hsum & Hsv & Hd
          & Hq1 & Hq2 & Hq3).
    destruct (scrape_pages cfg net selenium time_sleep HAS_BS4 BeautifulSoup
                batch_stamp n (S i) rest (ap1, s1)) as [[ap2 s2] tr2].
    subst ap1 s1.
    cbn [fst snd total_products pages_success pages_failed pages_processed]
      in *.
    subst ap2. exists (new1 ++ new2).
    rewrite saved_app, pauses_app, Hsaved, Hsv, Hpauses, length_app.
    assert (Hlen : Z.of_nat n
                   = (Z.of_nat i + 1 + Z.of_nat (List.length rest))%Z).
    { rewrite Hn, Hi, length_app. cbn [List.length]. lia. }
    assert (Hone : (match new1 with [] => 0 | _ :: _ => 1 end = 0 <->
                    new1 = [])%Z)
      by (destruct new1; split; try discriminate; auto).
    assert (Hrange : (0 <= match new1 with [] => 0 | _ :: _ => 1 end <= 1)%Z)
      by (destruct new1; lia).
    split; [now rewrite app_assoc|].
    split.
    { apply Forall_app. split.
      - eapply Forall_impl; [|exact Hprov]. cbn beta.
        intros p (Hu & Hurl & Hnum). split; [exact Hu|].
        exists i. split; [exact Hnum|].
        rewrite nth_error_app2 by lia. rewrite Hi, Nat.sub_diag.
        cbn. now rewrite Hurl.
      - eapply Forall_impl; [|exact Hprov2]. cbn beta.
        intros p (Hu & j & Hnum & Hnth). split; [exact Hu|].
        exists j. split; [exact Hnum|].
        now rewrite <- app_assoc in Hnth. }
    split; [exact Ht|].
    split.
    { rewrite Hp. destruct rest; [|reflexivity].
      cbn [List.length] in Hlen. lia. }
    split; [lia|].
    split.
    { split.
      - intros E. assert (Hz : new1 = []) by (apply Hone; lia).
        subst new1. cbn [app]. apply Hs0. lia.
      - intros E. apply app_eq_nil in E. destruct E as [-> ->].
        pose proof (proj2 Hs0 eq_refl). lia. }
    assert (Hfailed : failed = true ->
                      (match new1 with [] => 0 | _ :: _ => 1 end = 0)%Z)
      by (intros H; rewrite (Hf H); reflexivity).
    cbn [List.length].
    destruct failed; cbn [negb andb] in *.
    + specialize (Hfailed eq_refl). cbn [List.length app].
      repeat split; try lia. exact Hd.
    + destruct (Z.of_nat i <? Z.of_nat n - 1)%Z eqn:Hlast.
      * apply Z.ltb_lt in Hlast. cbn [List.length app].
        repeat split; try lia. constructor; [reflexivity|exact Hd].
      * apply Z.ltb_ge in Hlast. cbn [List.length app].
        repeat split; try lia. exact Hd.
Qed.

(** A run that passes the connectivity test, as the loop over the
    pages leaves it. *)
Lemma run_completed :
  exit_code (run cfg net selenium time_sleep HAS_BS4 BeautifulSoup batch_stamp)
  = None ->
  exists (all_products : list Product) (counters : Stats) (tr : list effect),
    scrape_pages cfg net selenium time_sleep HAS_BS4 BeautifulSoup batch_stamp
      (List.length (generate_page_urls cfg (fst (find_last_page cfg (net 1)))))
      0 (generate_page_urls cfg (fst (find_last_page cfg (net 1))))
      ([], no_stats)
    = ((all_products, counters), tr) /\
    saved (effects (run cfg net selenium time_sleep HAS_BS4 BeautifulSoup
                      batch_stamp)) = saved tr ++ all_products /\
    pauses (effects (run cfg net selenium time_sleep HAS_BS4 BeautifulSoup
                       batch_stamp)) = pauses tr /\
    pages_success (stats (run cfg net selenium time_sleep HAS_BS4
                            BeautifulSoup batch_stamp))
    = pages_success counters /\
    pages_failed (stats (run cfg net selenium time_sleep HAS_BS4
                           BeautifulSoup batch_stamp))
    = pages_failed counters /\
    pages_processed (stats (run cfg net selenium time_sleep HAS_BS4
                              BeautifulSoup batch_stamp))
    = pages_processed counters /\
    total_products (stats (run cfg net selenium time_sleep HAS_BS4
                             BeautifulSoup batch_stamp))
    = match all_products with
      | [] => total_products counters
      | _ => Z.of_nat (List.length all_products)
      end.
Proof.
  unfold run.
  destruct (test_connectivity cfg (net 0)) as [reachable tr0].
  destruct reachable; cbn [negb]; [|discriminate].
  destruct (find_last_page cfg (net 1)) as [max_page tr1]. cbn [fst].
  destruct (scrape_pages cfg net selenium time_sleep HAS_BS4 BeautifulSoup
              batch_stamp (List.length (generate_page_urls cfg max_page)) 0
              (generate_page_urls cfg max_page) ([], no_stats))
    as [[all_products counters] tr2].
  intros _. exists all_products, counters, tr2.
  split; [reflexivity|].
  destruct (quiet_Net tr0) as (Hp0 & Hs0 & _).
  destruct (quiet_Net tr1) as (Hp1 & Hs1 & _).
  destruct all_products as [|p ps];
    cbn [exit_code stats effects total_products pages_success pages_failed
         pages_processed];
    change (saved (EnsureDirectories :: ?l)) with (saved l);
    change (pauses (EnsureDirectories :: ?l)) with (pauses l);
    rewrite !saved_app, !pauses_app, Hp0, Hs0, Hp1, Hs1;
    unfold saved, pauses; cbn [flat_map app]; rewrite ?app_nil_r;
    repeat split.
Qed.

(** X15. In a run that passes the connectivity test and whose pauses
    return, at the end [pages_processed] is the number of page URLs,
    [pages_success] and [pages_failed] together do not exceed it (a page
    that is fetched but yields no record counts as neither),
    [total_products] is the number of records handed to
    [Storage.save_products], records are saved exactly when some page
    succeeded, and every saved record carries the stamp of the batch,
    the number of its page, counted from 1, and the URL of that page. *)
Theorem run_counters :
  time_sleep (REQUEST_DELAY cfg) = None ->
  exit_code (run cfg net selenium time_sleep HAS_BS4 BeautifulSoup batch_stamp)
  = None ->
  pages_processed (stats (run cfg net selenium time_sleep HAS_BS4
                            BeautifulSoup batch_stamp))
  = Z.of_nat (List.length
                (generate_page_urls cfg (fst (find_last_page cfg (net 1))))) /\
  (0 <= pages_success (stats (run cfg net selenium time_sleep HAS_BS4
                                BeautifulSoup batch_stamp)))%Z /\
  (0 <= pages_failed (stats (run cfg net selenium time_sleep HAS_BS4
                               BeautifulSoup batch_stamp)))%Z /\
  (pages_success (stats (run cfg net selenium time_sleep HAS_BS4
                           BeautifulSoup batch_stamp))
   + pages_failed (stats (run cfg net selenium time_sleep HAS_BS4
                            BeautifulSoup batch_stamp))
   <= Z.of_nat (List.length
                  (generate_page_urls cfg (fst (find_last_page cfg (net 1))))))%Z /\
  total_products (stats (run cfg net selenium time_sleep HAS_BS4
                           BeautifulSoup batch_stamp))
  = Z.of_nat (List.length
                (saved (effects (run cfg net selenium time_sleep HAS_BS4
                                   BeautifulSoup batch_stamp)))) /\
  (pages_success (stats (run cfg net selenium time_sleep HAS_BS4
                           BeautifulSoup batch_stamp)) = 0%Z <->
   saved (effects (run cfg net selenium time_sleep HAS_BS4
                     BeautifulSoup batch_stamp)) = []) /\
  Forall (fun p =>
            upload_ts p = batch_stamp /\
            exists j, page_number p = (Z.of_nat j + 1)%Z /\
                      nth_error (generate_page_urls cfg
                                   (fst (find_last_page cfg (net 1)))) j
                      = Some (page_url p))
         (saved (effects (run cfg net selenium time_sleep HAS_BS4
                            BeautifulSoup batch_stamp))).
Proof.
  intros Hsleep Hexit.
  destruct (run_completed Hexit)
    as (all_products & counters & tr & Hloop & -> & _ & -> & -> & -> & ->).
  destruct (scrape_pages_inv
              (generate_page_urls cfg (fst (find_last_page cfg (net 1))))
              []
              (List.length
                 (generate_page_urls cfg (fst (find_last_page cfg (net 1)))))
              0 [] no_stats _ Hsleep eq_refl eq_refl eq_refl)
    as (new & Hnew & Hprov & Ht & Hp & Hs & Hs0 & Hf & Hsum & Hsv & _).
  rewrite Hloop in *.
  cbn [fst snd app total_products pages_success pages_failed pages_processed
       no_stats] in *.
  subst new. rewrite Hsv. cbn [app].
  split.
  { rewrite Hp.
    destruct (generate_page_urls cfg (fst (find_last_page cfg (net 1))));
      reflexivity. }
  split; [exact Hs|]. split; [exact Hf|]. split; [lia|].
  split; [destruct all_products; [exact Ht|reflexivity]|].
  split; [exact Hs0|exact Hprov].
Qed.




End RunFacts.

Section RunWitnesses.
Import Py Re config logging Parser Scraper Main Scenarios.

Lemma a_run_returns : exit_code a_run = None.
Proof. vm_compute. reflexivity. Qed.

(** The run over two pages of four records each. *)
Lemma run_counters_witness :
  pages_processed (stats a_run) = 2%Z /\
  (0 <= pages_success (stats a_run))%Z /\
  (0 <= pages_failed (stats a_run))%Z /\
  (pages_success (stats a_run) + pages_failed (stats a_run) <= 2)%Z /\
  total_products (stats a_run) = 8%Z /\
  (pages_success (stats a_run) = 0%Z <-> saved (effects a_run) = []) /\
  Forall (fun p =>
            upload_ts p = a_stamp /\
            exists j, page_number p = (Z.of_nat j + 1)%Z /\
                      nth_error [BASE_URL default;
                                 BASE_URL default ++ u "?page=2"] j
                      = Some (page_url p))
         (saved (effects a_run)).
Proof.
  pose proof (run_counters default online NotInstalled (fun _ => None) true
                (fun _ => inr milk_soup) a_stamp eq_refl a_run_returns) as H.
  fold a_run in H.
  replace (generate_page_urls default (fst (find_last_page default (online 1))))
    with [BASE_URL default; BASE_URL default ++ u "?page=2"] in H
    by (vm_compute; reflexivity).
  replace (Z.of_nat (List.length (saved (effects a_run)))) with 8%Z in H
    by (vm_compute; reflexivity).
  exact H.
Defined.


End RunWitnesses.

(** ** The page URLs *)

Section PageUrlFacts.
Import Py Re config logging Scraper Main.
Context {U : Unicode} (cfg : Config).

Lemma pos_digits_number (fuel : nat) :
  forall n acc,
    (N.to_nat (N.log2 n) < fuel)%nat ->
    digits_number (pos_digits fuel n acc)
    = (n * 10 ^ N.of_nat (List.length acc) + digits_number acc)%N.
Proof.
  induction fuel as [|fuel IH]; intros n acc Hfuel; [lia|].
  cbn [pos_digits].
  assert (Hd : digits_number (digit_char (n mod 10) :: acc)
               = ((n mod 10) * 10 ^ N.of_nat (List.length acc)
                  + digits_number acc)%N).
  { cbn [digits_number]. unfold digit_char.
    now rewrite (N.add_comm 48), N.add_sub. }
  pose proof (N.div_mod n 10 ltac:(lia)) as Hn.
  destruct (n / 10 =? 0)%N eqn:Hq.
  - apply N.eqb_eq in Hq. rewrite Hd. rewrite Hq in Hn.
    rewrite N.mul_0_r, N.add_0_l in Hn. now rewrite <- Hn.
  - apply N.eqb_neq in Hq. rewrite IH.
    + rewrite Hd. cbn [List.length]. rewrite Nat2N.inj_succ, N.pow_succ_r'.
      lia.
    + assert (Hle : (N.log2 (n / 10) <= N.log2 (N.div2 n))%N).
      { apply N.log2_le_mono. rewrite N.div2_div.
        apply N.div_le_lower_bound; [lia|].
        pose proof (N.Div0.mul_div_le n 10). lia. }
      assert (Hhalf : (N.log2 (N.div2 n) = N.log2 n - 1)%N).
      { rewrite N.div2_spec. apply N.log2_shiftr. }
      assert (Hpos : (0 < N.log2 n)%N).
      { apply N.log2_pos. destruct (N.le_gt_cases n 1); [|lia].
        assert (n / 10 = 0)%N by (apply N.div_small; lia). lia. }
      lia.
Qed.

(** The decimal output of a number writes that number. *)
Lemma str_of_N_number (n : N) : digits_number (str_of_N n) = n.
Proof.
  unfold str_of_N. rewrite pos_digits_number by lia. cbn. lia.
Qed.

Lemma str_of_Z_injective (a b : Z) :
  (0 <= a)%Z -> (0 <= b)%Z -> str_of_Z a = str_of_Z b -> a = b.
Proof.
  intros Ha Hb H.
  assert (Hn : forall z, (0 <= z)%Z -> str_of_Z z = str_of_N (Z.to_N z)).
  { intros z Hz. destruct z; try reflexivity; lia. }
  rewrite (Hn a Ha), (Hn b Hb) in H.
  apply (f_equal digits_number) in H. rewrite !str_of_N_number in H. lia.
Qed.

(** X18. The page URLs are pairwise distinct; there are max_page of
    them (none when max_page is below 1); the first is BASE_URL itself
    and the URL at index j > 0 is BASE_URL followed by ?page= and the
    decimal j + 1. *)
Theorem generate_page_urls_distinct (max_page : Z) :
  NoDup (generate_page_urls cfg max_page) /\
  Z.of_nat (List.length (generate_page_urls cfg max_page)) = Z.max 0 max_page /\
  (forall j page,
     nth_error (generate_page_urls cfg max_page) j = Some page ->
     page = if (j =? 0)%nat then BASE_URL cfg
            else BASE_URL cfg ++ u "?page=" ++ str_of_Z (Z.of_nat j + 1)).
Proof.
  unfold generate_page_urls. split; [|split].
  - apply NoDup_map_NoDup_ForallPairs.
    + intros p q Hp Hq. apply in_map_iff in Hp, Hq.
      destruct Hp as (a & <- & Ha), Hq as (b & <- & Hb).
      apply in_seq in Ha, Hb.
      destruct (Z.of_nat a =? 1)%Z eqn:Ea, (Z.of_nat b =? 1)%Z eqn:Eb.
      * apply Z.eqb_eq in Ea, Eb. congruence.
      * intros H. apply (f_equal (@List.length char)) in H.
        rewrite !length_app in H. change (List.length (u "?page=")) with 6%nat in H.
        lia.
      * intros H. apply (f_equal (@List.length char)) in H.
        rewrite !length_app in H. change (List.length (u "?page=")) with 6%nat in H.
        lia.
      * intros H. apply app_inv_head in H. apply app_inv_head in H.
        apply str_of_Z_injective in H; lia.
    + apply NoDup_map_NoDup_ForallPairs; [|apply seq_NoDup].
      intros a b _ _. lia.
  - rewrite !length_map, length_seq. lia.
  - intros j page. rewrite !nth_error_map.
    destruct (nth_error (List.seq 1 (Z.to_nat max_page)) j) as [a|] eqn:E;
      [|discriminate].
    assert (Hj : (j < List.length (List.seq 1 (Z.to_nat max_page)))%nat).
    { apply nth_error_Some. rewrite E. discriminate. }
    rewrite length_seq in Hj.
    rewrite nth_error_nth' with (d := 0%nat) in E by now rewrite length_seq.
    rewrite seq_nth in E by exact Hj.
    assert (Ha : a = S j) by (injection E as <-; reflexivity). subst a.
    cbn [option_map]. intros H.
    assert (Hpage : page = if (Z.of_nat (S j) =? 1)%Z then BASE_URL cfg
                           else BASE_URL cfg ++ u "?page="
                                ++ str_of_Z (Z.of_nat (S j)))
      by congruence.
    rewrite Hpage. destruct j as [|j]; [reflexivity|].
    replace (Z.of_nat (S (S j)) =? 1)%Z with false
      by (symmetry; apply Z.eqb_neq; lia).
    cbn [Nat.eqb]. do 3 f_equal. lia.
Qed.

End PageUrlFacts.
